(** * IAM policy snippets for Cloud Pub/Sub: a shallow embedding

    Source: [samples/snippets/iam.py].  The six sample functions and the
    command dispatcher are embedded as computations in a small monad that
    threads the state of the remote Policy Service, lets a Python exception
    cut the rest of a function short, and logs every observable action (a
    client construction, a remote call with the answer it got, a [print],
    a [client.close()]) in the order the program performs it. *)

From Stdlib Require Import Ascii String List ZArith Bool Arith Permutation.
Import ListNotations.
Local Open Scope string_scope.
Local Open Scope list_scope.

(** ** Data model *)

(** One entry of [policy.bindings]: a role and the members it is granted to. *)
Record Binding : Type := mkBinding {
  role : string;
  members : list string
}.

(** The policy message.  The program only touches [bindings]; [version] and
    [etag] stand for what else the message carries and travel with it. *)
Record Policy : Type := mkPolicy {
  version : Z;
  bindings : list Binding;
  etag : string
}.

Definition Binding_eq_dec (a b : Binding) : {a = b} + {a <> b}.
Proof.
  decide equality.
  - apply (list_eq_dec string_dec).
  - apply string_dec.
Defined.

(** Errors the Policy Service can answer a call with. *)
Inductive ServiceError : Type :=
| NotFoundError
| PermissionDeniedError
| UnavailableError
| AbortedError.

(** Python exceptions that can end a function of this program early. *)
Inductive Exn : Type :=
| ApiError (e : ServiceError)
| AttributeError (attr : string).

(** The two client classes the samples construct. *)
Inductive ClientKind : Type :=
| PublisherClient
| SubscriberClient.

(** The two resource kinds, one per family of sample functions. *)
Inductive ResourceKind : Type :=
| Topic
| Subscription.

Inductive Request : Type :=
| GetIamPolicyRequest (resource : string)
| SetIamPolicyRequest (resource : string) (policy : Policy)
| TestIamPermissionsRequest (resource : string) (permissions : list string).

Inductive Reply : Type :=
| PolicyReply (policy : Policy)
| PermissionsReply (permissions : list string).

(** Arguments handed to [str.format]; the rendering itself is the
    interpreter's and is not modelled. *)
Inductive Value : Type :=
| VStr (s : string)
| VMembers (ms : list string)
| VPolicy (p : Policy)
| VPermissions (ps : list string).

(** Observable actions, in program order.  A client is identified by the
    number it received when it was constructed. *)
Inductive Event : Type :=
| NewClient (k : ClientKind) (id : nat)
| Rpc (id : nat) (rq : Request) (answer : ServiceError + Reply)
| Print (fmt : string) (args : list Value)
| Close (id : nat).

(** ** The external collaborator

    [pubsub_v1] is not part of this repository.  Everything the samples use
    of it is taken as a parameter: the two path templates and the three IAM
    calls, each of which may answer with an error and may change the
    service's state. *)
Record PubSub (S : Type) : Type := mkPubSub {
  topic_path : string -> string -> string;
  subscription_path : string -> string -> string;
  get_iam_policy : string -> S -> (ServiceError + Policy) * S;
  set_iam_policy : string -> Policy -> S -> (ServiceError + Policy) * S;
  test_iam_permissions :
    string -> list string -> S -> (ServiceError + list string) * S
}.

Arguments topic_path {S} _ _ _.
Arguments subscription_path {S} _ _ _.
Arguments get_iam_policy {S} _ _ _.
Arguments set_iam_policy {S} _ _ _ _.
Arguments test_iam_permissions {S} _ _ _ _.

(** ** The monad of sample code *)

Inductive Outcome (A : Type) : Type :=
| Returned (a : A)
| Raised (e : Exn).

Arguments Returned {A} a.
Arguments Raised {A} e.

Record St (S : Type) : Type := mkSt {
  service_state : S;
  next_client : nat
}.

Arguments mkSt {S} _ _.
Arguments service_state {S} _.
Arguments next_client {S} _.

Record Run (S A : Type) : Type := mkRun {
  outcome : Outcome A;
  final : St S;
  events : list Event
}.

Arguments mkRun {S A} _ _ _.
Arguments outcome {S A} _.
Arguments final {S A} _.
Arguments events {S A} _.

Definition M (S A : Type) : Type := St S -> Run S A.

Definition ret {S A} (a : A) : M S A :=
  fun st => mkRun (Returned a) st [].

Definition raise {S A} (e : Exn) : M S A :=
  fun st => mkRun (Raised e) st [].

Definition bind {S A B} (m : M S A) (f : A -> M S B) : M S B :=
  fun st =>
    let r := m st in
    match outcome r with
    | Returned a =>
        let r' := f a (final r) in
        mkRun (outcome r') (final r') (events r ++ events r')
    | Raised e => mkRun (Raised e) (final r) (events r)
    end.

Declare Scope py_scope.
Delimit Scope py_scope with py.
Notation "x <- m ;; k" := (bind m (fun x => k))
  (at level 100, m at next level, right associativity) : py_scope.
Notation "m ;; k" := (bind m (fun _ => k))
  (at level 100, right associativity) : py_scope.
Local Open Scope py_scope.

Definition emit {S} (ev : Event) : M S unit :=
  fun st => mkRun (Returned tt) st [ev].

(** [print(fmt.format(args...))] *)
Definition print {S} (fmt : string) (args : list Value) : M S unit :=
  emit (Print fmt args).

(** [for x in xs: body(x)] *)
Fixpoint for_each {S A} (xs : list A) (body : A -> M S unit) : M S unit :=
  match xs with
  | [] => ret tt
  | x :: xs' => body x ;; for_each xs' body
  end.

(** [policy.bindings.add(role=..., members=[...])]: a new entry is put after
    the entries already there, whatever they are. *)
Definition bindings_add (policy : Policy) (r : string) (ms : list string)
  : Policy :=
  mkPolicy (version policy) (bindings policy ++ [mkBinding r ms]) (etag policy).

Section Snippets.

Context {S : Type} (pubsub_v1 : PubSub S).

(** [pubsub_v1.PublisherClient()] / [pubsub_v1.SubscriberClient()] *)
Definition new_client (k : ClientKind) : M S nat :=
  fun st =>
    mkRun (Returned (next_client st))
          (mkSt (service_state st) (Datatypes.S (next_client st)))
          [NewClient k (next_client st)].

(** [client.get_iam_policy(request={"resource": resource})] *)
Definition client_get_iam_policy (client : nat) (resource : string)
  : M S Policy :=
  fun st =>
    let '(answer, s') := get_iam_policy pubsub_v1 resource (service_state st) in
    let st' := mkSt s' (next_client st) in
    match answer with
    | inl e =>
        mkRun (Raised (ApiError e)) st'
              [Rpc client (GetIamPolicyRequest resource) (inl e)]
    | inr p =>
        mkRun (Returned p) st'
              [Rpc client (GetIamPolicyRequest resource) (inr (PolicyReply p))]
    end.

(** [client.set_iam_policy(request={"resource": resource, "policy": policy})] *)
Definition client_set_iam_policy (client : nat) (resource : string)
  (policy : Policy) : M S Policy :=
  fun st =>
    let '(answer, s') :=
      set_iam_policy pubsub_v1 resource policy (service_state st) in
    let st' := mkSt s' (next_client st) in
    match answer with
    | inl e =>
        mkRun (Raised (ApiError e)) st'
              [Rpc client (SetIamPolicyRequest resource policy) (inl e)]
    | inr p =>
        mkRun (Returned p) st'
              [Rpc client (SetIamPolicyRequest resource policy)
                   (inr (PolicyReply p))]
    end.

(** [client.test_iam_permissions(request={"resource": resource,
    "permissions": permissions})] *)
Definition client_test_iam_permissions (client : nat) (resource : string)
  (permissions : list string) : M S (list string) :=
  fun st =>
    let '(answer, s') :=
      test_iam_permissions pubsub_v1 resource permissions (service_state st) in
    let st' := mkSt s' (next_client st) in
    match answer with
    | inl e =>
        mkRun (Raised (ApiError e)) st'
              [Rpc client (TestIamPermissionsRequest resource permissions)
                   (inl e)]
    | inr ps =>
        mkRun (Returned ps) st'
              [Rpc client (TestIamPermissionsRequest resource permissions)
                   (inr (PermissionsReply ps))]
    end.

(** [client.close()] *)
Definition client_close (client : nat) : M S unit := emit (Close client).

(** ** The six sample functions *)

Definition get_topic_policy (project_id topic_id : string) : M S unit :=
  client <- new_client PublisherClient ;;
  let topic_path := topic_path pubsub_v1 project_id topic_id in
  policy <- client_get_iam_policy client topic_path ;;
  print "Policy for topic {}:" [VStr topic_path] ;;
  for_each (bindings policy) (fun binding =>
    print "Role: {}, Members: {}"
          [VStr (role binding); VMembers (members binding)]).

Definition get_subscription_policy (project_id subscription_id : string)
  : M S unit :=
  client <- new_client SubscriberClient ;;
  let subscription_path :=
    subscription_path pubsub_v1 project_id subscription_id in
  policy <- client_get_iam_policy client subscription_path ;;
  print "Policy for subscription {}:" [VStr subscription_path] ;;
  for_each (bindings policy) (fun binding =>
    print "Role: {}, Members: {}"
          [VStr (role binding); VMembers (members binding)]) ;;
  client_close client.

Definition set_topic_policy (project_id topic_id : string) : M S unit :=
  client <- new_client PublisherClient ;;
  let topic_path := topic_path pubsub_v1 project_id topic_id in
  policy <- client_get_iam_policy client topic_path ;;
  let policy := bindings_add policy "roles/pubsub.viewer" ["domain:google.com"] in
  let policy :=
    bindings_add policy "roles/pubsub.publisher"
                 ["group:cloud-logs@google.com"] in
  policy <- client_set_iam_policy client topic_path policy ;;
  print "IAM policy for topic {} set: {}" [VStr topic_id; VPolicy policy].

Definition set_subscription_policy (project_id subscription_id : string)
  : M S unit :=
  client <- new_client SubscriberClient ;;
  let subscription_path :=
    subscription_path pubsub_v1 project_id subscription_id in
  policy <- client_get_iam_policy client subscription_path ;;
  let policy := bindings_add policy "roles/pubsub.viewer" ["domain:google.com"] in
  let policy :=
    bindings_add policy "roles/editor" ["group:cloud-logs@google.com"] in
  policy <- client_set_iam_policy client subscription_path policy ;;
  print "IAM policy for subscription {} set: {}"
        [VStr subscription_id; VPolicy policy] ;;
  client_close client.

Definition check_topic_permissions (project_id topic_id : string) : M S unit :=
  client <- new_client PublisherClient ;;
  let topic_path := topic_path pubsub_v1 project_id topic_id in
  let permissions_to_check := ["pubsub.topics.publish"; "pubsub.topics.update"] in
  allowed_permissions <-
    client_test_iam_permissions client topic_path permissions_to_check ;;
  print "Allowed permissions for topic {}: {}"
        [VStr topic_path; VPermissions allowed_permissions].

Definition check_subscription_permissions
  (project_id subscription_id : string) : M S unit :=
  client <- new_client SubscriberClient ;;
  let subscription_path :=
    subscription_path pubsub_v1 project_id subscription_id in
  let permissions_to_check :=
    ["pubsub.subscriptions.consume"; "pubsub.subscriptions.update"] in
  allowed_permissions <-
    client_test_iam_permissions client subscription_path permissions_to_check ;;
  print "Allowed permissions for subscription {}: {}"
        [VStr subscription_path; VPermissions allowed_permissions] ;;
  client_close client.

(** ** The command dispatcher *)

(** What [parser.parse_args()] hands to the dispatcher.  [command] is [None]
    when no subcommand was given; [topic_id] and [subscription_id] exist only
    under the subcommands that declare them. *)
Record Namespace : Type := mkNamespace {
  project_id : string;
  command : option string;
  topic_id : option string;
  subscription_id : option string
}.

(** [args.command == name] *)
Definition command_is (args : Namespace) (name : string) : bool :=
  match command args with
  | Some c => String.eqb c name
  | None => false
  end.

(** [args.<attr>] for an attribute a subparser may not have set. *)
Definition getattr (attr : string) (v : option string) : M S string :=
  match v with
  | Some x => ret x
  | None => raise (AttributeError attr)
  end.

Definition main (args : Namespace) : M S unit :=
  if command_is args "get-topic-policy" then
    t <- getattr "topic_id" (topic_id args) ;;
    get_topic_policy (project_id args) t
  else if command_is args "get-subscription-policy" then
    s <- getattr "subscription_id" (subscription_id args) ;;
    get_subscription_policy (project_id args) s
  else if command_is args "set-topic-policy" then
    t <- getattr "topic_id" (topic_id args) ;;
    set_topic_policy (project_id args) t
  else if command_is args "set-subscription-policy" then
    s <- getattr "subscription_id" (subscription_id args) ;;
    set_subscription_policy (project_id args) s
  else if command_is args "check-topic-permissions" then
    t <- getattr "topic_id" (topic_id args) ;;
    check_topic_permissions (project_id args) t
  else if command_is args "check-subscription-permissions" then
    s <- getattr "subscription_id" (subscription_id args) ;;
    check_subscription_permissions (project_id args) s
  else ret tt.

End Snippets.

Arguments new_client {S} k _.
Arguments client_close {S} client _.

(** ** The facade, indexed by operation and resource kind *)

Inductive Operation : Type :=
| GetPolicy
| SetPolicy
| CheckPermissions.

Definition client_of (k : ResourceKind) : ClientKind :=
  match k with
  | Topic => PublisherClient
  | Subscription => SubscriberClient
  end.

Definition resource_path {S} (pubsub_v1 : PubSub S) (k : ResourceKind)
  : string -> string -> string :=
  match k with
  | Topic => topic_path pubsub_v1
  | Subscription => subscription_path pubsub_v1
  end.

Definition get_policy {S} (pubsub_v1 : PubSub S) (k : ResourceKind)
  : string -> string -> M S unit :=
  match k with
  | Topic => get_topic_policy pubsub_v1
  | Subscription => get_subscription_policy pubsub_v1
  end.

Definition set_policy {S} (pubsub_v1 : PubSub S) (k : ResourceKind)
  : string -> string -> M S unit :=
  match k with
  | Topic => set_topic_policy pubsub_v1
  | Subscription => set_subscription_policy pubsub_v1
  end.

Definition check_permissions {S} (pubsub_v1 : PubSub S) (k : ResourceKind)
  : string -> string -> M S unit :=
  match k with
  | Topic => check_topic_permissions pubsub_v1
  | Subscription => check_subscription_permissions pubsub_v1
  end.

Definition facade {S} (pubsub_v1 : PubSub S) (op : Operation)
  : ResourceKind -> string -> string -> M S unit :=
  match op with
  | GetPolicy => get_policy pubsub_v1
  | SetPolicy => set_policy pubsub_v1
  | CheckPermissions => check_permissions pubsub_v1
  end.

(** Names for the literals that occur in the set and check functions. *)
Definition viewer_binding : Binding :=
  mkBinding "roles/pubsub.viewer" ["domain:google.com"].
Definition publisher_binding : Binding :=
  mkBinding "roles/pubsub.publisher" ["group:cloud-logs@google.com"].
Definition editor_binding : Binding :=
  mkBinding "roles/editor" ["group:cloud-logs@google.com"].

Definition bindings_to_add (k : ResourceKind) : list Binding :=
  match k with
  | Topic => [viewer_binding; publisher_binding]
  | Subscription => [viewer_binding; editor_binding]
  end.

Definition permissions_to_check (k : ResourceKind) : list string :=
  match k with
  | Topic => ["pubsub.topics.publish"; "pubsub.topics.update"]
  | Subscription =>
      ["pubsub.subscriptions.consume"; "pubsub.subscriptions.update"]
  end.

(** The policy a set function hands to [set_iam_policy] after fetching
    [fetched]. *)
Definition with_added (k : ResourceKind) (fetched : Policy) : Policy :=
  mkPolicy (version fetched) (bindings fetched ++ bindings_to_add k)
           (etag fetched).

(** The line printed for one entry of [policy.bindings] by the get functions. *)
Definition print_binding (binding : Binding) : Event :=
  Print "Role: {}, Members: {}"
        [VStr (role binding); VMembers (members binding)].

(** ** Reading a log *)

Fixpoint rpc_requests (evs : list Event) : list Request :=
  match evs with
  | [] => []
  | Rpc _ rq _ :: evs' => rq :: rpc_requests evs'
  | _ :: evs' => rpc_requests evs'
  end.

Fixpoint submitted_policies (evs : list Event) : list Policy :=
  match evs with
  | [] => []
  | Rpc _ (SetIamPolicyRequest _ p) _ :: evs' => p :: submitted_policies evs'
  | _ :: evs' => submitted_policies evs'
  end.

Fixpoint tested_permissions (evs : list Event) : list (list string) :=
  match evs with
  | [] => []
  | Rpc _ (TestIamPermissionsRequest _ ps) _ :: evs' =>
      ps :: tested_permissions evs'
  | _ :: evs' => tested_permissions evs'
  end.

Fixpoint printed (evs : list Event) : list (string * list Value) :=
  match evs with
  | [] => []
  | Print fmt args :: evs' => (fmt, args) :: printed evs'
  | _ :: evs' => printed evs'
  end.

Fixpoint fetched_policies (evs : list Event) : list Policy :=
  match evs with
  | [] => []
  | Rpc _ (GetIamPolicyRequest _) (inr (PolicyReply p)) :: evs' =>
      p :: fetched_policies evs'
  | _ :: evs' => fetched_policies evs'
  end.

(** Policies that reached the output. *)
Fixpoint printed_policies (evs : list Event) : list Policy :=
  match evs with
  | [] => []
  | Print _ args :: evs' =>
      flat_map (fun v => match v with VPolicy p => [p] | _ => [] end) args
      ++ printed_policies evs'
  | _ :: evs' => printed_policies evs'
  end.

(** Permission lists that reached the output. *)
Fixpoint printed_permissions (evs : list Event) : list string :=
  match evs with
  | [] => []
  | Print _ args :: evs' =>
      flat_map (fun v => match v with VPermissions ps => ps | _ => [] end) args
      ++ printed_permissions evs'
  | _ :: evs' => printed_permissions evs'
  end.

Fixpoint acquired (evs : list Event) : list nat :=
  match evs with
  | [] => []
  | NewClient _ id :: evs' => id :: acquired evs'
  | _ :: evs' => acquired evs'
  end.

Fixpoint closed (evs : list Event) : list nat :=
  match evs with
  | [] => []
  | Close id :: evs' => id :: closed evs'
  | _ :: evs' => closed evs'
  end.

(** Clients constructed in a log and not closed in it. *)
Definition unreleased (evs : list Event) : list nat :=
  filter (fun id => negb (existsb (Nat.eqb id) (closed evs))) (acquired evs).

(** Remote calls of a log that were answered with an error. *)
Fixpoint failed_calls (evs : list Event) : list ServiceError :=
  match evs with
  | [] => []
  | Rpc _ _ (inl e) :: evs' => e :: failed_calls evs'
  | _ :: evs' => failed_calls evs'
  end.

(** Exit status of the interpreter: 0 when the script runs to its end, 1 when
    an exception reaches the top level. *)
Definition exit_code {A} (o : Outcome A) : Z :=
  match o with
  | Returned _ => 0%Z
  | Raised _ => 1%Z
  end.

Definition recognized_commands : list string :=
  ["get-topic-policy"; "get-subscription-policy"; "set-topic-policy";
   "set-subscription-policy"; "check-topic-permissions";
   "check-subscription-permissions"].

(** ** An in-memory Policy Service

    A stand-in for the remote service, used to run the samples on concrete
    inputs: it stores one policy per existing resource, echoes what it
    stores on a write, and grants the caller a fixed list of permissions. *)
Module InMemory.

Record Store : Type := mkStore {
  policies : list (string * Policy);
  granted : list string
}.

Fixpoint lookup (resource : string) (ps : list (string * Policy))
  : option Policy :=
  match ps with
  | [] => None
  | (r, p) :: ps' => if String.eqb r resource then Some p else lookup resource ps'
  end.

Fixpoint replace (resource : string) (p : Policy)
  (ps : list (string * Policy)) : list (string * Policy) :=
  match ps with
  | [] => []
  | (r, q) :: ps' =>
      if String.eqb r resource then (r, p) :: ps'
      else (r, q) :: replace resource p ps'
  end.

Definition service : PubSub Store :=
  {| topic_path := fun project topic =>
       ("projects/" ++ project ++ "/topics/" ++ topic)%string;
     subscription_path := fun project subscription =>
       ("projects/" ++ project ++ "/subscriptions/" ++ subscription)%string;
     get_iam_policy := fun resource s =>
       match lookup resource (policies s) with
       | Some p => (inr p, s)
       | None => (inl NotFoundError, s)
       end;
     set_iam_policy := fun resource p s =>
       match lookup resource (policies s) with
       | Some _ =>
           (inr p, mkStore (replace resource p (policies s)) (granted s))
       | None => (inl NotFoundError, s)
       end;
     test_iam_permissions := fun resource ps s =>
       match lookup resource (policies s) with
       | Some _ =>
           (inr (filter (fun p => existsb (String.eqb p) (granted s)) ps), s)
       | None => (inl NotFoundError, s)
       end |}.

Definition empty_policy : Policy := mkPolicy 0 [] "".

(** Project "proj-1" with topic "topic-a" and subscription "sub-a", both
    with the empty policy; the caller may publish and consume. *)
Definition store0 : Store :=
  mkStore [("projects/proj-1/topics/topic-a", empty_policy);
           ("projects/proj-1/subscriptions/sub-a", empty_policy)]
          ["pubsub.topics.publish"; "pubsub.subscriptions.consume"].

Definition st0 : St Store := mkSt store0 0.

(** The same project after topic "topic-a" was granted to the viewers of
    "domain:google.com". *)
Definition store1 : Store :=
  mkStore [("projects/proj-1/topics/topic-a",
            mkPolicy 1 [mkBinding "roles/pubsub.viewer" ["domain:google.com"]]
                     "BwXhqDVSbGk=")]
          ["pubsub.topics.publish"].

End InMemory.

(** ** More ways to read a log *)

(** The resource a request names. *)
Definition request_resource (rq : Request) : string :=
  match rq with
  | GetIamPolicyRequest resource => resource
  | SetIamPolicyRequest resource _ => resource
  | TestIamPermissionsRequest resource _ => resource
  end.

(** The clients the calls of a log went through. *)
Fixpoint rpc_clients (evs : list Event) : list nat :=
  match evs with
  | [] => []
  | Rpc id _ _ :: evs' => id :: rpc_clients evs'
  | _ :: evs' => rpc_clients evs'
  end.

(** The format strings of the three families of functions, by resource
    kind, and the statement the subscription functions end with. *)
Definition get_header (k : ResourceKind) : string :=
  match k with
  | Topic => "Policy for topic {}:"
  | Subscription => "Policy for subscription {}:"
  end.

Definition set_line (k : ResourceKind) : string :=
  match k with
  | Topic => "IAM policy for topic {} set: {}"
  | Subscription => "IAM policy for subscription {} set: {}"
  end.

Definition check_line (k : ResourceKind) : string :=
  match k with
  | Topic => "Allowed permissions for topic {}: {}"
  | Subscription => "Allowed permissions for subscription {}: {}"
  end.

Definition close_tail (k : ResourceKind) (client : nat) : list Event :=
  match k with
  | Topic => []
  | Subscription => [Close client]
  end.

(** A service that answers a write with a policy other than the one it was
    sent: the in-memory service, stamping a new version and token on what
    it echoes. *)
Module Stamping.

Definition service : PubSub InMemory.Store :=
  {| topic_path := topic_path InMemory.service;
     subscription_path := subscription_path InMemory.service;
     get_iam_policy := get_iam_policy InMemory.service;
     set_iam_policy := fun resource p s =>
       match set_iam_policy InMemory.service resource p s with
       | (inr q, s') =>
           (inr (mkPolicy (version q + 1) (bindings q) "stamped"), s')
       | (inl e, s') => (inl e, s')
       end;
     test_iam_permissions := test_iam_permissions InMemory.service |}.

End Stamping.

(** A service that answers a permission test with more than it was asked
    about: whatever the request, it reports "pubsub.topics.publish" and
    "pubsub.topics.delete". *)
Module Leaky.

Definition service : PubSub InMemory.Store :=
  {| topic_path := topic_path InMemory.service;
     subscription_path := subscription_path InMemory.service;
     get_iam_policy := get_iam_policy InMemory.service;
     set_iam_policy := set_iam_policy InMemory.service;
     test_iam_permissions := fun _ _ s =>
       (inr ["pubsub.topics.publish"; "pubsub.topics.delete"], s) |}.

End Leaky.

(** ** The command line

    The parser built before the dispatcher has one positional argument,
    [project_id], followed by an optional subcommand out of six, each of
    which declares one positional argument of its own.  What follows is
    [parser.parse_args()] on command lines none of whose words starts with
    "-"; a command line with such a word (an option, or [-h]) is outside
    what is modelled. *)

(** A word that starts with "-". *)
Definition option_like (word : string) : bool :=
  match word with
  | String c _ => Ascii.eqb c "-"%char
  | EmptyString => false
  end.

(** The subparsers in the order they are added, each with the positional
    argument it declares. *)
Definition subparsers : list (string * string) :=
  [("get-topic-policy", "topic_id");
   ("get-subscription-policy", "subscription_id");
   ("set-topic-policy", "topic_id");
   ("set-subscription-policy", "subscription_id");
   ("check-topic-permissions", "topic_id");
   ("check-subscription-permissions", "subscription_id")].

Fixpoint find_subparser (name : string) (ps : list (string * string))
  : option string :=
  match ps with
  | [] => None
  | (n, attr) :: ps' =>
      if String.eqb n name then Some attr else find_subparser name ps'
  end.

(** What parsing ends with: a namespace, or [parser.error], which writes
    the usage message to the error stream and exits with status 2. *)
Inductive Parsed : Type :=
| ParsedArgs (args : Namespace)
| UsageError.

(** [parser.parse_args()] on the words after the program name; [None] when
    a word starts with "-". *)
Definition parse_args (argv : list string) : option Parsed :=
  if existsb option_like argv then None
  else
    Some
      match argv with
      | [] => UsageError
      | [project] => ParsedArgs (mkNamespace project None None None)
      | project :: name :: rest =>
          match find_subparser name subparsers, rest with
          | Some attr, [x] =>
              ParsedArgs
                (if String.eqb attr "topic_id"
                 then mkNamespace project (Some name) (Some x) None
                 else mkNamespace project (Some name) None (Some x))
          | _, _ => UsageError
          end
      end.

(** How the process ends: its exit status and what it did on the way. *)
Record Process : Type := mkProcess {
  status : Z;
  log : list Event
}.

(** The [if __name__ == "__main__":] block: parse, then dispatch. *)
Definition program {S} (pubsub_v1 : PubSub S) (argv : list string)
  (st : St S) : option Process :=
  match parse_args argv with
  | None => None
  | Some UsageError => Some (mkProcess 2 [])
  | Some (ParsedArgs args) =>
      let r := main pubsub_v1 args st in
      Some (mkProcess (exit_code (outcome r)) (events r))
  end.

(** ** Proof steps used more than once *)

(** An observer of logs distributes over concatenation: induction on the
    first log, then cases on its head event. *)
Ltac log_app evs :=
  let ev := fresh "ev" in
  let IH := fresh "IH" in
  induction evs as [|ev evs IH]; intros; cbn;
  [ reflexivity
  | repeat match goal with
           | |- context [match ?x with _ => _ end] => destruct x
           end;
    cbn; rewrite ?IH, <- ?app_assoc; reflexivity ].

(** One branch of the dispatcher: the attribute is there and the run is the
    run of the operation, or it is missing and the run stops at once. *)
Ltac dispatch_branch getattr_eqn op k v :=
  let H := fresh "H" in
  let x := fresh "x" in
  match goal with
  | |- context [bind (getattr ?a v) ?f ?st] =>
      pose proof (getattr_eqn a v f st) as H
  end;
  destruct v as [x|];
  [ left; exists op, k, x; destruct H as (H & H' & _); split; [exact H | exact H']
  | right; rewrite H; split; [reflexivity | right; eexists; reflexivity] ].

(** Cases on the answers of the service that an equation [H] about a run
    branches on, then the run replaced by what [H] says it is. *)
Ltac by_answers H :=
  cbv zeta in H;
  repeat match type of H with
         | context [match ?x with _ => _ end] => destruct x as [[?|?] ?]
         end;
  rewrite H.

(** ** What a run of each sample function looks like

    One equation per function: the whole run, by cases on what the service
    answers.  The claims below are read off these equations. *)

Lemma for_each_emit {S A} (g : A -> Event) (xs : list A) (st : St S) :
  for_each xs (fun x => emit (g x)) st = mkRun (Returned tt) st (map g xs).
Proof.
  induction xs as [|x xs IH]; cbn [for_each map].
  - reflexivity.
  - unfold bind. cbn. rewrite IH. reflexivity.
Qed.

Section Runs.

Context {S : Type} (pubsub_v1 : PubSub S).

Lemma get_topic_policy_run (project topic : string) (st : St S) :
  get_topic_policy pubsub_v1 project topic st =
  let path := topic_path pubsub_v1 project topic in
  let c := next_client st in
  match get_iam_policy pubsub_v1 path (service_state st) with
  | (inl e, s1) =>
      mkRun (Raised (ApiError e)) (mkSt s1 (Datatypes.S c))
            [NewClient PublisherClient c;
             Rpc c (GetIamPolicyRequest path) (inl e)]
  | (inr p, s1) =>
      mkRun (Returned tt) (mkSt s1 (Datatypes.S c))
            (NewClient PublisherClient c
             :: Rpc c (GetIamPolicyRequest path) (inr (PolicyReply p))
             :: Print "Policy for topic {}:" [VStr path]
             :: map print_binding (bindings p))
  end.
Proof.
  unfold get_topic_policy, bind, new_client, client_get_iam_policy, print.
  cbn.
  destruct (get_iam_policy pubsub_v1 _ _) as [[e|p] s1]; cbn.
  - reflexivity.
  - rewrite (for_each_emit print_binding). reflexivity.
Qed.

Lemma get_subscription_policy_run (project subscription : string) (st : St S) :
  get_subscription_policy pubsub_v1 project subscription st =
  let path := subscription_path pubsub_v1 project subscription in
  let c := next_client st in
  match get_iam_policy pubsub_v1 path (service_state st) with
  | (inl e, s1) =>
      mkRun (Raised (ApiError e)) (mkSt s1 (Datatypes.S c))
            [NewClient SubscriberClient c;
             Rpc c (GetIamPolicyRequest path) (inl e)]
  | (inr p, s1) =>
      mkRun (Returned tt) (mkSt s1 (Datatypes.S c))
            (NewClient SubscriberClient c
             :: Rpc c (GetIamPolicyRequest path) (inr (PolicyReply p))
             :: Print "Policy for subscription {}:" [VStr path]
             :: map print_binding (bindings p) ++ [Close c])
  end.
Proof.
  unfold get_subscription_policy, bind, new_client, client_get_iam_policy,
    client_close, print.
  cbn.
  destruct (get_iam_policy pubsub_v1 _ _) as [[e|p] s1]; cbn.
  - reflexivity.
  - rewrite (for_each_emit print_binding). reflexivity.
Qed.

Lemma set_topic_policy_run (project topic : string) (st : St S) :
  set_topic_policy pubsub_v1 project topic st =
  let path := topic_path pubsub_v1 project topic in
  let c := next_client st in
  match get_iam_policy pubsub_v1 path (service_state st) with
  | (inl e, s1) =>
      mkRun (Raised (ApiError e)) (mkSt s1 (Datatypes.S c))
            [NewClient PublisherClient c;
             Rpc c (GetIamPolicyRequest path) (inl e)]
  | (inr p, s1) =>
      let p' := with_added Topic p in
      match set_iam_policy pubsub_v1 path p' s1 with
      | (inl e, s2) =>
          mkRun (Raised (ApiError e)) (mkSt s2 (Datatypes.S c))
                [NewClient PublisherClient c;
                 Rpc c (GetIamPolicyRequest path) (inr (PolicyReply p));
                 Rpc c (SetIamPolicyRequest path p') (inl e)]
      | (inr q, s2) =>
          mkRun (Returned tt) (mkSt s2 (Datatypes.S c))
                [NewClient PublisherClient c;
                 Rpc c (GetIamPolicyRequest path) (inr (PolicyReply p));
                 Rpc c (SetIamPolicyRequest path p') (inr (PolicyReply q));
                 Print "IAM policy for topic {} set: {}" [VStr topic; VPolicy q]]
      end
  end.
Proof.
  unfold set_topic_policy, bind, new_client, client_get_iam_policy,
    client_set_iam_policy, print, emit, with_added, bindings_add.
  cbn.
  destruct (get_iam_policy pubsub_v1 _ _) as [[e|p] s1]; cbn.
  - reflexivity.
  - rewrite <- app_assoc. cbn.
    destruct (set_iam_policy pubsub_v1 _ _ _) as [[e|q] s2]; reflexivity.
Qed.

Lemma set_subscription_policy_run (project subscription : string) (st : St S) :
  set_subscription_policy pubsub_v1 project subscription st =
  let path := subscription_path pubsub_v1 project subscription in
  let c := next_client st in
  match get_iam_policy pubsub_v1 path (service_state st) with
  | (inl e, s1) =>
      mkRun (Raised (ApiError e)) (mkSt s1 (Datatypes.S c))
            [NewClient SubscriberClient c;
             Rpc c (GetIamPolicyRequest path) (inl e)]
  | (inr p, s1) =>
      let p' := with_added Subscription p in
      match set_iam_policy pubsub_v1 path p' s1 with
      | (inl e, s2) =>
          mkRun (Raised (ApiError e)) (mkSt s2 (Datatypes.S c))
                [NewClient SubscriberClient c;
                 Rpc c (GetIamPolicyRequest path) (inr (PolicyReply p));
                 Rpc c (SetIamPolicyRequest path p') (inl e)]
      | (inr q, s2) =>
          mkRun (Returned tt) (mkSt s2 (Datatypes.S c))
                [NewClient SubscriberClient c;
                 Rpc c (GetIamPolicyRequest path) (inr (PolicyReply p));
                 Rpc c (SetIamPolicyRequest path p') (inr (PolicyReply q));
                 Print "IAM policy for subscription {} set: {}"
                       [VStr subscription; VPolicy q];
                 Close c]
      end
  end.
Proof.
  unfold set_subscription_policy, bind, new_client, client_get_iam_policy,
    client_set_iam_policy, client_close, print, emit, with_added, bindings_add.
  cbn.
  destruct (get_iam_policy pubsub_v1 _ _) as [[e|p] s1]; cbn.
  - reflexivity.
  - rewrite <- app_assoc. cbn.
    destruct (set_iam_policy pubsub_v1 _ _ _) as [[e|q] s2]; reflexivity.
Qed.

Lemma check_topic_permissions_run (project topic : string) (st : St S) :
  check_topic_permissions pubsub_v1 project topic st =
  let path := topic_path pubsub_v1 project topic in
  let c := next_client st in
  let asked := permissions_to_check Topic in
  match test_iam_permissions pubsub_v1 path asked (service_state st) with
  | (inl e, s1) =>
      mkRun (Raised (ApiError e)) (mkSt s1 (Datatypes.S c))
            [NewClient PublisherClient c;
             Rpc c (TestIamPermissionsRequest path asked) (inl e)]
  | (inr ps, s1) =>
      mkRun (Returned tt) (mkSt s1 (Datatypes.S c))
            [NewClient PublisherClient c;
             Rpc c (TestIamPermissionsRequest path asked)
                 (inr (PermissionsReply ps));
             Print "Allowed permissions for topic {}: {}"
                   [VStr path; VPermissions ps]]
  end.
Proof.
  unfold check_topic_permissions, bind, new_client,
    client_test_iam_permissions, print, emit, permissions_to_check.
  cbn.
  destruct (test_iam_permissions pubsub_v1 _ _ _) as [[e|ps] s1]; reflexivity.
Qed.

Lemma check_subscription_permissions_run (project subscription : string)
  (st : St S) :
  check_subscription_permissions pubsub_v1 project subscription st =
  let path := subscription_path pubsub_v1 project subscription in
  let c := next_client st in
  let asked := permissions_to_check Subscription in
  match test_iam_permissions pubsub_v1 path asked (service_state st) with
  | (inl e, s1) =>
      mkRun (Raised (ApiError e)) (mkSt s1 (Datatypes.S c))
            [NewClient SubscriberClient c;
             Rpc c (TestIamPermissionsRequest path asked) (inl e)]
  | (inr ps, s1) =>
      mkRun (Returned tt) (mkSt s1 (Datatypes.S c))
            [NewClient SubscriberClient c;
             Rpc c (TestIamPermissionsRequest path asked)
                 (inr (PermissionsReply ps));
             Print "Allowed permissions for subscription {}: {}"
                   [VStr path; VPermissions ps];
             Close c]
  end.
Proof.
  unfold check_subscription_permissions, bind, new_client,
    client_test_iam_permissions, client_close, print, emit,
    permissions_to_check.
  cbn.
  destruct (test_iam_permissions pubsub_v1 _ _ _) as [[e|ps] s1]; reflexivity.
Qed.

End Runs.

(** ** Properties of the set functions *)

Section SetPolicy.

Context {S : Type} (pubsub_v1 : PubSub S).

Lemma set_policy_run (k : ResourceKind) (project name : string) (st : St S) :
  let path := resource_path pubsub_v1 k project name in
  let r := set_policy pubsub_v1 k project name st in
  match get_iam_policy pubsub_v1 path (service_state st) with
  | (inl e, s1) =>
      outcome r = Raised (ApiError e)
      /\ events r = [NewClient (client_of k) (next_client st);
                     Rpc (next_client st) (GetIamPolicyRequest path) (inl e)]
  | (inr p, s1) =>
      match set_iam_policy pubsub_v1 path (with_added k p) s1 with
      | (inl e, _) =>
          outcome r = Raised (ApiError e)
          /\ events r =
             [NewClient (client_of k) (next_client st);
              Rpc (next_client st) (GetIamPolicyRequest path)
                  (inr (PolicyReply p));
              Rpc (next_client st) (SetIamPolicyRequest path (with_added k p))
                  (inl e)]
      | (inr q, _) =>
          outcome r = Returned tt
          /\ exists tail,
             events r =
             NewClient (client_of k) (next_client st)
             :: Rpc (next_client st) (GetIamPolicyRequest path)
                    (inr (PolicyReply p))
             :: Rpc (next_client st) (SetIamPolicyRequest path (with_added k p))
                    (inr (PolicyReply q))
             :: Print (match k with
                       | Topic => "IAM policy for topic {} set: {}"
                       | Subscription =>
                           "IAM policy for subscription {} set: {}"
                       end) [VStr name; VPolicy q]
             :: tail
             /\ tail = match k with
                       | Topic => []
                       | Subscription => [Close (next_client st)]
                       end
      end
  end.
Proof.
  destruct k; cbn [set_policy resource_path client_of].
  - rewrite set_topic_policy_run. cbv zeta.
    destruct (get_iam_policy pubsub_v1 _ _) as [[e|p] s1]; cbn.
    + split; reflexivity.
    + destruct (set_iam_policy pubsub_v1 _ _ _) as [[e|q] s2]; cbn.
      * split; reflexivity.
      * split; [reflexivity|]. exists []. split; reflexivity.
  - rewrite set_subscription_policy_run. cbv zeta.
    destruct (get_iam_policy pubsub_v1 _ _) as [[e|p] s1]; cbn.
    + split; reflexivity.
    + destruct (set_iam_policy pubsub_v1 _ _ _) as [[e|q] s2]; cbn.
      * split; reflexivity.
      * split; [reflexivity|]. eexists. split; reflexivity.
Qed.

(** C1.  For every project id and resource name of either kind, a set
    function performs, in this order, one fetch of the current policy and
    one write of the fetched policy with the new bindings put after the
    fetched ones (nothing compared, merged or dropped); the write is issued
    whatever version and token the fetched policy carries, and those travel
    back untouched.  When the fetch fails, the fetch is the only call. *)
Theorem C1_set_policy_fetch_append_overwrite
  (k : ResourceKind) (project name : string) (st : St S) :
  let path := resource_path pubsub_v1 k project name in
  let r := set_policy pubsub_v1 k project name st in
  match get_iam_policy pubsub_v1 path (service_state st) with
  | (inr fetched, _) =>
      rpc_requests (events r) =
      [GetIamPolicyRequest path;
       SetIamPolicyRequest path
         (mkPolicy (version fetched)
                   (bindings fetched ++ bindings_to_add k)
                   (etag fetched))]
  | (inl _, _) => rpc_requests (events r) = [GetIamPolicyRequest path]
  end.
Proof.
  intros path r. pose proof (set_policy_run k project name st) as H.
  cbv zeta in H. fold path in H. fold r in H.
  destruct (get_iam_policy pubsub_v1 path (service_state st)) as [[e|p] s1].
  - destruct H as [_ ->]. reflexivity.
  - fold (with_added k p).
    destruct (set_iam_policy pubsub_v1 path (with_added k p) s1) as [[e|q] s2].
    + destruct H as [_ ->]. reflexivity.
    + destruct H as [_ (tail & -> & ->)]. destruct k; reflexivity.
Qed.

Lemma set_policy_submitted (k : ResourceKind) (project name : string)
  (st : St S) :
  let path := resource_path pubsub_v1 k project name in
  let r := set_policy pubsub_v1 k project name st in
  match get_iam_policy pubsub_v1 path (service_state st) with
  | (inr fetched, _) => submitted_policies (events r) = [with_added k fetched]
  | (inl _, _) => submitted_policies (events r) = []
  end.
Proof.
  intros path r. pose proof (set_policy_run k project name st) as H.
  cbv zeta in H. fold path in H. fold r in H.
  destruct (get_iam_policy pubsub_v1 path (service_state st)) as [[e|p] s1].
  - destruct H as [_ ->]. reflexivity.
  - destruct (set_iam_policy pubsub_v1 path (with_added k p) s1) as [[e|q] s2].
    + destruct H as [_ ->]. reflexivity.
    + destruct H as [_ (tail & -> & ->)]. destruct k; reflexivity.
Qed.

(** C3.  A set function only appends: whatever policy is fetched, the
    policy submitted holds every fetched binding, unchanged and in place,
    followed by the bindings the call adds; counted with multiplicity, each
    binding occurs as often as in the fetched policy plus as often as among
    the added ones, so an added binding already present is present twice. *)
Theorem C3_set_policy_append_only
  (k : ResourceKind) (project name : string) (st : St S) :
  let path := resource_path pubsub_v1 k project name in
  let r := set_policy pubsub_v1 k project name st in
  match get_iam_policy pubsub_v1 path (service_state st) with
  | (inr fetched, _) =>
      exists submitted,
        submitted_policies (events r) = [submitted]
        /\ Permutation (bindings submitted)
                       (bindings fetched ++ bindings_to_add k)
        /\ (forall b,
              count_occ Binding_eq_dec (bindings submitted) b =
              count_occ Binding_eq_dec (bindings fetched) b
              + count_occ Binding_eq_dec (bindings_to_add k) b)
        /\ firstn (length (bindings fetched)) (bindings submitted) =
           bindings fetched
  | (inl _, _) => submitted_policies (events r) = []
  end.
Proof.
  intros path r. pose proof (set_policy_submitted k project name st) as H.
  cbv zeta in H. fold path in H. fold r in H.
  destruct (get_iam_policy pubsub_v1 path (service_state st)) as [[e|p] s1].
  - exact H.
  - exists (with_added k p). split; [exact H|]. cbn [with_added bindings].
    split; [apply Permutation_refl|]. split.
    + intro b. apply count_occ_app.
    + rewrite firstn_app, Nat.sub_diag, firstn_all. cbn. apply app_nil_r.
Qed.

End SetPolicy.

(** ** Reading a log that is a concatenation *)

Lemma fetched_policies_app (xs ys : list Event) :
  fetched_policies (xs ++ ys) = fetched_policies xs ++ fetched_policies ys.
Proof. revert ys. log_app xs. Qed.

Lemma submitted_policies_app (xs ys : list Event) :
  submitted_policies (xs ++ ys) =
  submitted_policies xs ++ submitted_policies ys.
Proof. revert ys. log_app xs. Qed.

Lemma printed_policies_app (xs ys : list Event) :
  printed_policies (xs ++ ys) = printed_policies xs ++ printed_policies ys.
Proof. revert ys. log_app xs. Qed.

Lemma closed_app (xs ys : list Event) :
  closed (xs ++ ys) = closed xs ++ closed ys.
Proof. revert ys. log_app xs. Qed.

Lemma acquired_app (xs ys : list Event) :
  acquired (xs ++ ys) = acquired xs ++ acquired ys.
Proof. revert ys. log_app xs. Qed.

Lemma failed_calls_app (xs ys : list Event) :
  failed_calls (xs ++ ys) = failed_calls xs ++ failed_calls ys.
Proof. revert ys. log_app xs. Qed.

Lemma printed_app (xs ys : list Event) :
  printed (xs ++ ys) = printed xs ++ printed ys.
Proof. revert ys. log_app xs. Qed.

(** The lines a get function prints for the bindings carry no policy, open
    or close no client and make no call. *)
Lemma print_binding_lines (bs : list Binding) :
  printed_policies (map print_binding bs) = []
  /\ fetched_policies (map print_binding bs) = []
  /\ submitted_policies (map print_binding bs) = []
  /\ acquired (map print_binding bs) = []
  /\ closed (map print_binding bs) = []
  /\ failed_calls (map print_binding bs) = []
  /\ rpc_requests (map print_binding bs) = [].
Proof.
  induction bs as [|b bs IH]; cbn.
  - repeat split.
  - exact IH.
Qed.

(** ** Setting the policy of a resource that has none yet *)

Example set_topic_policy_on_empty_policy :
  events (set_topic_policy InMemory.service "proj-1" "topic-a" InMemory.st0) =
  [NewClient PublisherClient 0;
   Rpc 0 (GetIamPolicyRequest "projects/proj-1/topics/topic-a")
       (inr (PolicyReply (mkPolicy 0 [] "")));
   Rpc 0 (SetIamPolicyRequest "projects/proj-1/topics/topic-a"
            (mkPolicy 0 [viewer_binding; publisher_binding] ""))
       (inr (PolicyReply (mkPolicy 0 [viewer_binding; publisher_binding] "")));
   Print "IAM policy for topic {} set: {}"
         [VStr "topic-a";
          VPolicy (mkPolicy 0 [viewer_binding; publisher_binding] "")]].
Proof. reflexivity. Qed.

(** A binding that is already there is added once more, and the version
    and the token of the fetched policy go back as they came. *)
Example set_topic_policy_repeats_existing_binding :
  submitted_policies
    (events (set_topic_policy InMemory.service "proj-1" "topic-a"
               (mkSt InMemory.store1 0))) =
  [mkPolicy 1 [viewer_binding; viewer_binding; publisher_binding]
            "BwXhqDVSbGk="].
Proof. reflexivity. Qed.

(** C2, as stated, fails: topic "topic-a" of project "proj-1" has the
    empty policy, and the policy [set_topic_policy] submits is not the one
    with the viewer binding alone. *)
Lemma C2_counterexample :
  get_iam_policy InMemory.service
    (topic_path InMemory.service "proj-1" "topic-a") InMemory.store0 =
  (inr (mkPolicy 0 [] ""), InMemory.store0)
  /\ ~ (exists submitted,
          submitted_policies
            (events (set_topic_policy InMemory.service "proj-1" "topic-a"
                       InMemory.st0)) = [submitted]
          /\ bindings submitted =
             [mkBinding "roles/pubsub.viewer" ["domain:google.com"]]).
Proof.
  split; [reflexivity|].
  intros (submitted & Hs & Hb).
  vm_compute in Hs. injection Hs as <-. discriminate Hb.
Qed.

Section SetPolicyOnEmpty.

Context {S : Type} (pubsub_v1 : PubSub S).

(** C2, amended.  When topic "topic-a" of project "proj-1" has a policy
    without bindings, [set_topic_policy] submits exactly one policy, and its
    bindings are the viewer binding for "domain:google.com" followed by the
    publisher binding for "group:cloud-logs@google.com", and no other. *)
Theorem C2_set_topic_policy_on_empty_policy
  (st : St S) (fetched : Policy) (s1 : S) :
  get_iam_policy pubsub_v1 (topic_path pubsub_v1 "proj-1" "topic-a")
                 (service_state st) = (inr fetched, s1) ->
  bindings fetched = [] ->
  exists submitted,
    submitted_policies
      (events (set_topic_policy pubsub_v1 "proj-1" "topic-a" st)) = [submitted]
    /\ bindings submitted =
       [mkBinding "roles/pubsub.viewer" ["domain:google.com"];
        mkBinding "roles/pubsub.publisher" ["group:cloud-logs@google.com"]].
Proof.
  intros Hget Hempty.
  pose proof (set_policy_submitted pubsub_v1 Topic "proj-1" "topic-a" st) as H.
  cbn [resource_path set_policy] in H. cbv zeta in H. rewrite Hget in H.
  exists (with_added Topic fetched). split; [exact H|].
  cbn [with_added bindings bindings_to_add]. rewrite Hempty. reflexivity.
Qed.

End SetPolicyOnEmpty.

Lemma C2_witness :
  exists submitted,
    submitted_policies
      (events (set_topic_policy InMemory.service "proj-1" "topic-a"
                 InMemory.st0)) = [submitted]
    /\ bindings submitted =
       [mkBinding "roles/pubsub.viewer" ["domain:google.com"];
        mkBinding "roles/pubsub.publisher" ["group:cloud-logs@google.com"]].
Proof.
  apply (C2_set_topic_policy_on_empty_policy InMemory.service InMemory.st0
           InMemory.empty_policy InMemory.store0); reflexivity.
Defined.

(** ** Fetching a policy and then setting it *)

Example get_then_set_topic_policy :
  let r := (get_topic_policy InMemory.service "proj-1" "topic-a" ;;
            set_topic_policy InMemory.service "proj-1" "topic-a")
             InMemory.st0 in
  fetched_policies (events r) = [mkPolicy 0 [] ""; mkPolicy 0 [] ""]
  /\ printed_policies (events r) =
     [mkPolicy 0 [viewer_binding; publisher_binding] ""].
Proof. split; reflexivity. Qed.

Section GetThenSet.

Context {S : Type} (pubsub_v1 : PubSub S).

(** X12.  For every project id and resource name of either kind, a get
    followed at once by a set of the same resource, with the stored policy
    unchanged in between, fetches that policy twice, submits its bindings
    followed by the two bindings the set function of that kind adds, and
    hands on the policy the service answers the write with.  The submitted
    policy holds a binding exactly when the original holds it or it is one
    of the two added. *)
Theorem X12_get_then_set_appends_fixed_bindings
  (k : ResourceKind) (project name : string) (st : St S)
  (original echoed : Policy) (s1 s2 s3 : S) :
  let path := resource_path pubsub_v1 k project name in
  get_iam_policy pubsub_v1 path (service_state st) = (inr original, s1) ->
  get_iam_policy pubsub_v1 path s1 = (inr original, s2) ->
  set_iam_policy pubsub_v1 path (with_added k original) s2 = (inr echoed, s3) ->
  let r := (get_policy pubsub_v1 k project name ;;
            set_policy pubsub_v1 k project name) st in
  outcome r = Returned tt
  /\ fetched_policies (events r) = [original; original]
  /\ printed_policies (events r) = [echoed]
  /\ exists submitted,
       submitted_policies (events r) = [submitted]
       /\ bindings submitted = bindings original ++ bindings_to_add k
       /\ length (bindings submitted) = length (bindings original) + 2
       /\ forall b, In b (bindings submitted) <->
                    In b (bindings original) \/ In b (bindings_to_add k).
Proof.
  intros path Hget1 Hget2 Hset r.
  assert (Hr : outcome r = Returned tt
               /\ fetched_policies (events r) = [original; original]
               /\ printed_policies (events r) = [echoed]
               /\ submitted_policies (events r) = [with_added k original]).
  { subst r path. unfold bind.
    destruct k; cbn [get_policy set_policy resource_path] in *.
    - rewrite get_topic_policy_run. cbv zeta. rewrite Hget1.
      cbn [outcome final events]. rewrite set_topic_policy_run. cbv zeta.
      cbn [service_state next_client]. rewrite Hget2, Hset. cbn.
      rewrite fetched_policies_app, printed_policies_app,
        submitted_policies_app.
      destruct (print_binding_lines (bindings original))
        as (-> & -> & -> & _).
      repeat split.
    - rewrite get_subscription_policy_run. cbv zeta. rewrite Hget1.
      cbn [outcome final events]. rewrite set_subscription_policy_run.
      cbv zeta. cbn [service_state next_client]. rewrite Hget2, Hset. cbn.
      rewrite <- !app_assoc.
      rewrite fetched_policies_app, printed_policies_app,
        submitted_policies_app.
      destruct (print_binding_lines (bindings original))
        as (-> & -> & -> & _).
      repeat split. }
  destruct Hr as (Ho & Hf & Hp & Hs).
  repeat split; try assumption.
  exists (with_added k original). split; [exact Hs|].
  cbn [with_added bindings]. split; [reflexivity|]. split.
  - rewrite length_app. destruct k; reflexivity.
  - intro b. apply in_app_iff.
Qed.

End GetThenSet.

Lemma X12_witness :
  let original := mkPolicy 1 [viewer_binding] "BwXhqDVSbGk=" in
  let r := (get_policy InMemory.service Topic "proj-1" "topic-a" ;;
            set_policy InMemory.service Topic "proj-1" "topic-a")
             (mkSt InMemory.store1 0) in
  outcome r = Returned tt
  /\ fetched_policies (events r) = [original; original]
  /\ printed_policies (events r) =
     [mkPolicy 1 [viewer_binding; viewer_binding; publisher_binding]
               "BwXhqDVSbGk="]
  /\ exists submitted,
       submitted_policies (events r) = [submitted]
       /\ bindings submitted = bindings original ++ bindings_to_add Topic
       /\ length (bindings submitted) = length (bindings original) + 2
       /\ forall b, In b (bindings submitted) <->
                    In b (bindings original) \/ In b (bindings_to_add Topic).
Proof.
  apply (X12_get_then_set_appends_fixed_bindings InMemory.service Topic
           "proj-1" "topic-a" (mkSt InMemory.store1 0)
           (mkPolicy 1 [viewer_binding] "BwXhqDVSbGk=")
           (mkPolicy 1 [viewer_binding; viewer_binding; publisher_binding]
                     "BwXhqDVSbGk=")
           InMemory.store1 InMemory.store1
           (InMemory.mkStore
              [("projects/proj-1/topics/topic-a",
                mkPolicy 1 [viewer_binding; viewer_binding; publisher_binding]
                         "BwXhqDVSbGk=")]
              ["pubsub.topics.publish"]));
    reflexivity.
Defined.

(** ** Properties of the check functions *)

Section CheckPermissions.

Context {S : Type} (pubsub_v1 : PubSub S).

Lemma check_permissions_run (k : ResourceKind) (project name : string)
  (st : St S) :
  let path := resource_path pubsub_v1 k project name in
  let asked := permissions_to_check k in
  let c := next_client st in
  let r := check_permissions pubsub_v1 k project name st in
  match test_iam_permissions pubsub_v1 path asked (service_state st) with
  | (inl e, _) =>
      outcome r = Raised (ApiError e)
      /\ events r = [NewClient (client_of k) c;
                     Rpc c (TestIamPermissionsRequest path asked) (inl e)]
  | (inr ps, _) =>
      outcome r = Returned tt
      /\ events r =
         NewClient (client_of k) c
         :: Rpc c (TestIamPermissionsRequest path asked)
                (inr (PermissionsReply ps))
         :: Print (match k with
                   | Topic => "Allowed permissions for topic {}: {}"
                   | Subscription =>
                       "Allowed permissions for subscription {}: {}"
                   end) [VStr path; VPermissions ps]
         :: match k with
            | Topic => []
            | Subscription => [Close c]
            end
  end.
Proof.
  destruct k; cbn [check_permissions resource_path client_of].
  - rewrite check_topic_permissions_run. cbv zeta.
    destruct (test_iam_permissions pubsub_v1 _ _ _) as [[e|ps] s1];
      split; reflexivity.
  - rewrite check_subscription_permissions_run. cbv zeta.
    destruct (test_iam_permissions pubsub_v1 _ _ _) as [[e|ps] s1];
      split; reflexivity.
Qed.


(** Nothing is filtered on the way: an answer that names permissions that
    were not asked about is printed as it is. *)
Lemma check_permissions_prints_any_answer
  (k : ResourceKind) (project name : string) (st : St S)
  (granted : list string) (s1 : S) :
  test_iam_permissions pubsub_v1 (resource_path pubsub_v1 k project name)
                       (permissions_to_check k) (service_state st) =
  (inr granted, s1) ->
  printed_permissions (events (check_permissions pubsub_v1 k project name st))
  = granted.
Proof.
  intro Htest.
  pose proof (check_permissions_run k project name st) as H.
  cbv zeta in H. rewrite Htest in H. destruct H as [_ ->].
  destruct k; cbn; rewrite !app_nil_r; reflexivity.
Qed.

(** C9.  The permissions tested are written in the functions:
    [check_topic_permissions] always asks about "pubsub.topics.publish" and
    "pubsub.topics.update", [check_subscription_permissions] always about
    "pubsub.subscriptions.consume" and "pubsub.subscriptions.update",
    whatever the project, the resource and the service; the list asked
    about is never empty. *)
Theorem C9_permissions_to_check_are_fixed
  (project name : string) (st : St S) :
  tested_permissions
    (events (check_topic_permissions pubsub_v1 project name st)) =
  [["pubsub.topics.publish"; "pubsub.topics.update"]]
  /\ tested_permissions
       (events (check_subscription_permissions pubsub_v1 project name st)) =
     [["pubsub.subscriptions.consume"; "pubsub.subscriptions.update"]]
  /\ forall k,
       ~ In [] (tested_permissions
                  (events (check_permissions pubsub_v1 k project name st))).
Proof.
  assert (H : forall k,
             tested_permissions
               (events (check_permissions pubsub_v1 k project name st)) =
             [permissions_to_check k]).
  { intro k. pose proof (check_permissions_run k project name st) as H.
    cbv zeta in H.
    destruct (test_iam_permissions pubsub_v1 _ _ _) as [[e|ps] s1];
      destruct H as [_ ->]; destruct k; reflexivity. }
  split; [exact (H Topic)|]. split; [exact (H Subscription)|].
  intros k Hin. rewrite H in Hin. destruct k; cbn in Hin;
    destruct Hin as [Hin|[]]; discriminate Hin.
Qed.

End CheckPermissions.



(** ** The bindings a set function adds *)

Section FixedBindings.

Context {S : Type} (pubsub_v1 : PubSub S).

(** C8.  The bindings added are written in the functions, which take a
    project id and a resource id and nothing else: whatever the project,
    the resource, the service and the policy fetched, [set_topic_policy]
    submits the fetched policy followed by the viewer binding for
    "domain:google.com" and the publisher binding for
    "group:cloud-logs@google.com", and [set_subscription_policy] submits it
    followed by the same viewer binding and the editor binding for
    "group:cloud-logs@google.com". *)
Theorem C8_added_bindings_are_fixed (project name : string) (st : St S) :
  match get_iam_policy pubsub_v1 (topic_path pubsub_v1 project name)
                       (service_state st) with
  | (inr fetched, _) =>
      submitted_policies
        (events (set_topic_policy pubsub_v1 project name st)) =
      [mkPolicy (version fetched)
         (bindings fetched ++
          [mkBinding "roles/pubsub.viewer" ["domain:google.com"];
           mkBinding "roles/pubsub.publisher" ["group:cloud-logs@google.com"]])
         (etag fetched)]
  | (inl _, _) =>
      submitted_policies
        (events (set_topic_policy pubsub_v1 project name st)) = []
  end
  /\
  match get_iam_policy pubsub_v1 (subscription_path pubsub_v1 project name)
                       (service_state st) with
  | (inr fetched, _) =>
      submitted_policies
        (events (set_subscription_policy pubsub_v1 project name st)) =
      [mkPolicy (version fetched)
         (bindings fetched ++
          [mkBinding "roles/pubsub.viewer" ["domain:google.com"];
           mkBinding "roles/editor" ["group:cloud-logs@google.com"]])
         (etag fetched)]
  | (inl _, _) =>
      submitted_policies
        (events (set_subscription_policy pubsub_v1 project name st)) = []
  end.
Proof.
  split.
  - exact (set_policy_submitted pubsub_v1 Topic project name st).
  - exact (set_policy_submitted pubsub_v1 Subscription project name st).
Qed.

End FixedBindings.

(** ** Errors and client sessions *)

Section Failures.

Context {S : Type} (pubsub_v1 : PubSub S).

Lemma get_policy_run (k : ResourceKind) (project name : string) (st : St S) :
  let path := resource_path pubsub_v1 k project name in
  let c := next_client st in
  let r := get_policy pubsub_v1 k project name st in
  match get_iam_policy pubsub_v1 path (service_state st) with
  | (inl e, _) =>
      outcome r = Raised (ApiError e)
      /\ events r = [NewClient (client_of k) c;
                     Rpc c (GetIamPolicyRequest path) (inl e)]
  | (inr p, _) =>
      outcome r = Returned tt
      /\ events r =
         NewClient (client_of k) c
         :: Rpc c (GetIamPolicyRequest path) (inr (PolicyReply p))
         :: Print (match k with
                   | Topic => "Policy for topic {}:"
                   | Subscription => "Policy for subscription {}:"
                   end) [VStr path]
         :: map print_binding (bindings p)
            ++ match k with
               | Topic => []
               | Subscription => [Close c]
               end
  end.
Proof.
  destruct k; cbn [get_policy resource_path client_of].
  - rewrite get_topic_policy_run. cbv zeta.
    destruct (get_iam_policy pubsub_v1 _ _) as [[e|p] s1];
      rewrite ?app_nil_r; split; reflexivity.
  - rewrite get_subscription_policy_run. cbv zeta.
    destruct (get_iam_policy pubsub_v1 _ _) as [[e|p] s1];
      split; reflexivity.
Qed.

(** Every run of a facade operation has one of two shapes. *)
Lemma facade_run_shape (op : Operation) (k : ResourceKind)
  (project name : string) (st : St S) :
  let c := next_client st in
  let r := facade pubsub_v1 op k project name st in
  exists body,
    events r = NewClient (client_of k) c :: body
    /\ acquired body = []
    /\ ((outcome r = Returned tt
         /\ failed_calls body = []
         /\ exists inner,
              closed inner = []
              /\ body = inner ++ match k with
                                 | Topic => []
                                 | Subscription => [Close c]
                                 end)
        \/ (exists e rq inner,
              outcome r = Raised (ApiError e)
              /\ body = inner ++ [Rpc c rq (inl e)]
              /\ failed_calls inner = []
              /\ printed body = []
              /\ closed body = [])).
Proof.
  intros c r. subst c r.
  destruct op; cbn [facade].
  - pose proof (get_policy_run k project name st) as H. cbv zeta in H.
    destruct (get_iam_policy pubsub_v1 _ _) as [[e|p] s1];
      destruct H as [Ho He]; rewrite Ho, He; eexists; split;
      try reflexivity.
    + split; [reflexivity|]. right. exists e, (GetIamPolicyRequest
        (resource_path pubsub_v1 k project name)), [].
      repeat split.
    + destruct (print_binding_lines (bindings p))
        as (_ & _ & _ & Ha & Hc & Hf & _).
      split.
      { cbn. rewrite acquired_app, Ha. destruct k; reflexivity. }
      left. split; [reflexivity|]. split.
      { cbn. rewrite failed_calls_app, Hf. destruct k; reflexivity. }
      exists (Rpc (next_client st)
                  (GetIamPolicyRequest (resource_path pubsub_v1 k project name))
                  (inr (PolicyReply p))
              :: Print (match k with
                        | Topic => "Policy for topic {}:"
                        | Subscription => "Policy for subscription {}:"
                        end) [VStr (resource_path pubsub_v1 k project name)]
              :: map print_binding (bindings p)).
      split; [cbn; exact Hc | reflexivity].
  - pose proof (set_policy_run pubsub_v1 k project name st) as H.
    cbv zeta in H.
    destruct (get_iam_policy pubsub_v1 _ _) as [[e|p] s1].
    + destruct H as [Ho He]; rewrite Ho, He. eexists. split; [reflexivity|].
      split; [reflexivity|]. right. exists e, (GetIamPolicyRequest
        (resource_path pubsub_v1 k project name)), [].
      repeat split.
    + destruct (set_iam_policy pubsub_v1 _ _ _) as [[e|q] s2].
      * destruct H as [Ho He]; rewrite Ho, He. eexists.
        split; [reflexivity|]. split; [reflexivity|]. right.
        exists e, (SetIamPolicyRequest
          (resource_path pubsub_v1 k project name) (with_added k p)),
          [Rpc (next_client st)
               (GetIamPolicyRequest (resource_path pubsub_v1 k project name))
               (inr (PolicyReply p))].
        repeat split.
      * destruct H as [Ho (tail & He & Ht)]; rewrite Ho, He, Ht.
        eexists. split; [reflexivity|].
        split; [destruct k; reflexivity|]. left.
        split; [reflexivity|]. split; [destruct k; reflexivity|].
        exists [Rpc (next_client st)
                    (GetIamPolicyRequest
                       (resource_path pubsub_v1 k project name))
                    (inr (PolicyReply p));
                Rpc (next_client st)
                    (SetIamPolicyRequest
                       (resource_path pubsub_v1 k project name)
                       (with_added k p))
                    (inr (PolicyReply q));
                Print (match k with
                       | Topic => "IAM policy for topic {} set: {}"
                       | Subscription =>
                           "IAM policy for subscription {} set: {}"
                       end) [VStr name; VPolicy q]].
        split; reflexivity.
  - pose proof (check_permissions_run pubsub_v1 k project name st) as H.
    cbv zeta in H.
    destruct (test_iam_permissions pubsub_v1 _ _ _) as [[e|ps] s1];
      destruct H as [Ho He]; rewrite Ho, He; eexists; split;
      try reflexivity.
    + split; [reflexivity|]. right. exists e, (TestIamPermissionsRequest
        (resource_path pubsub_v1 k project name) (permissions_to_check k)), [].
      repeat split.
    + split; [destruct k; reflexivity|]. left.
      split; [reflexivity|]. split; [destruct k; reflexivity|].
      exists [Rpc (next_client st)
                  (TestIamPermissionsRequest
                     (resource_path pubsub_v1 k project name)
                     (permissions_to_check k))
                  (inr (PermissionsReply ps));
              Print (match k with
                     | Topic => "Allowed permissions for topic {}: {}"
                     | Subscription =>
                         "Allowed permissions for subscription {}: {}"
                     end)
                    [VStr (resource_path pubsub_v1 k project name);
                     VPermissions ps]].
      split; reflexivity.
Qed.

End Failures.

Section Dispatcher.

Context {S : Type} (pubsub_v1 : PubSub S).

Lemma bind_getattr_unit (attr : string) (v : option string)
  (f : string -> M S unit) (st : St S) :
  match v with
  | Some x =>
      outcome (bind (getattr attr v) f st) = outcome (f x st)
      /\ events (bind (getattr attr v) f st) = events (f x st)
      /\ final (bind (getattr attr v) f st) = final (f x st)
  | None =>
      bind (getattr attr v) f st = mkRun (Raised (AttributeError attr)) st []
  end.
Proof.
  destruct v as [x|]; unfold bind, getattr, ret, raise;
    cbn [outcome final events app].
  - repeat split.
  - reflexivity.
Qed.

(** A run of the dispatcher is a run of one facade operation, or performs
    no action at all. *)
Lemma main_run (args : Namespace) (st : St S) :
  let r := main pubsub_v1 args st in
  (exists op k name,
     outcome r = outcome (facade pubsub_v1 op k (project_id args) name st)
     /\ events r = events (facade pubsub_v1 op k (project_id args) name st))
  \/ (events r = []
      /\ (outcome r = Returned tt
          \/ exists attr, outcome r = Raised (AttributeError attr))).
Proof.
  cbv zeta. unfold main.
  destruct (command_is args "get-topic-policy").
  { dispatch_branch @bind_getattr_unit GetPolicy Topic (topic_id args). }
  destruct (command_is args "get-subscription-policy").
  { dispatch_branch @bind_getattr_unit GetPolicy Subscription (subscription_id args). }
  destruct (command_is args "set-topic-policy").
  { dispatch_branch @bind_getattr_unit SetPolicy Topic (topic_id args). }
  destruct (command_is args "set-subscription-policy").
  { dispatch_branch @bind_getattr_unit SetPolicy Subscription (subscription_id args). }
  destruct (command_is args "check-topic-permissions").
  { dispatch_branch @bind_getattr_unit CheckPermissions Topic (topic_id args). }
  destruct (command_is args "check-subscription-permissions").
  { dispatch_branch @bind_getattr_unit CheckPermissions Subscription (subscription_id args). }
  right. split; [reflexivity | left; reflexivity].
Qed.
Lemma facade_failure (op : Operation) (k : ResourceKind)
  (project name : string) (st : St S) (e : ServiceError) :
  let r := facade pubsub_v1 op k project name st in
  In e (failed_calls (events r)) ->
  outcome r = Raised (ApiError e)
  /\ failed_calls (events r) = [e]
  /\ (exists before rq,
        events r = before ++ [Rpc (next_client st) rq (inl e)])
  /\ printed (events r) = []
  /\ closed (events r) = [].
Proof.
  intros r Hin.
  destruct (facade_run_shape pubsub_v1 op k project name st)
    as (body & He & _ & [(_ & Hf & _) | (e' & rq & inner & Ho & Hb & Hf & Hp & Hc)]);
    fold r in He; rewrite He in Hin |- *; cbn in Hin |- *.
  - rewrite Hf in Hin. destruct Hin.
  - fold r in Ho.
    assert (Hfb : failed_calls body = [e']).
    { rewrite Hb, failed_calls_app, Hf. reflexivity. }
    rewrite Hfb in Hin |- *. destruct Hin as [<-|[]].
    repeat split; try assumption.
    exists (NewClient (client_of k) (next_client st) :: inner), rq.
    rewrite Hb. reflexivity.
Qed.

(** C6.  Whatever the operation, the resource kind and the error the
    service answers a call with, the operation ends with that very error:
    the failed call is the last thing it does (no second attempt, no other
    call), it is the only failed call, and nothing is printed in place of
    the result.  The dispatcher in turn lets the error through, so the
    process ends with a nonzero status. *)
Theorem C6_service_errors_propagate
  (op : Operation) (k : ResourceKind) (project name : string)
  (args : Namespace) (st : St S) (e : ServiceError) :
  (In e (failed_calls (events (facade pubsub_v1 op k project name st))) ->
   let r := facade pubsub_v1 op k project name st in
   outcome r = Raised (ApiError e)
   /\ failed_calls (events r) = [e]
   /\ (exists before rq,
         events r = before ++ [Rpc (next_client st) rq (inl e)])
   /\ printed (events r) = [])
  /\ (In e (failed_calls (events (main pubsub_v1 args st))) ->
      let r := main pubsub_v1 args st in
      outcome r = Raised (ApiError e)
      /\ failed_calls (events r) = [e]
      /\ (exists before rq,
            events r = before ++ [Rpc (next_client st) rq (inl e)])
      /\ printed (events r) = []
      /\ exit_code (outcome r) <> 0%Z).
Proof.
  split.
  - intros Hin r.
    destruct (facade_failure op k project name st e Hin)
      as (Ho & Hf & Hl & Hp & _).
    repeat split; assumption.
  - intros Hin r. subst r.
    destruct (main_run args st) as [(op' & k' & name' & Ho & He) | (He & _)];
      cbv zeta in *; rewrite He in Hin.
    + destruct (facade_failure op' k' (project_id args) name' st e Hin)
        as (Ho' & Hf & Hl & Hp & _).
      rewrite Ho, He, Ho'. repeat split; try assumption.
      cbn. discriminate.
    + destruct Hin.
Qed.

(** C10, amended.  When the program is invoked with a project id and no
    subcommand at all, the parser leaves the command unset, the dispatcher
    takes none of its six branches, no client is constructed, no call is
    made, nothing is printed, and the process ends with status 0. *)
Theorem C10_no_subcommand_exits_zero (project : string) (st : St S) :
  option_like project = false ->
  exists args,
    parse_args [project] = Some (ParsedArgs args)
    /\ command args = None
    /\ (forall c, In c recognized_commands -> command_is args c = false)
    /\ events (main pubsub_v1 args st) = []
    /\ outcome (main pubsub_v1 args st) = Returned tt
    /\ final (main pubsub_v1 args st) = st
    /\ program pubsub_v1 [project] st = Some (mkProcess 0 []).
Proof.
  intro Hplain. exists (mkNamespace project None None None).
  unfold program, parse_args. cbn [existsb]. rewrite Hplain.
  cbn [orb]. repeat split.
Qed.

End Dispatcher.

Lemma C6_witness :
  let r := facade InMemory.service GetPolicy Topic "proj-1" "no-such-topic"
                  InMemory.st0 in
  let r' := main InMemory.service
                 (mkNamespace "proj-1" (Some "set-subscription-policy") None
                              (Some "no-such-subscription"))
                 InMemory.st0 in
  (outcome r = Raised (ApiError NotFoundError)
   /\ failed_calls (events r) = [NotFoundError]
   /\ (exists before rq,
         events r = before ++ [Rpc 0 rq (inl NotFoundError)])
   /\ printed (events r) = [])
  /\ (outcome r' = Raised (ApiError NotFoundError)
      /\ failed_calls (events r') = [NotFoundError]
      /\ (exists before rq,
            events r' = before ++ [Rpc 0 rq (inl NotFoundError)])
      /\ printed (events r') = []
      /\ exit_code (outcome r') <> 0%Z).
Proof.
  pose proof (C6_service_errors_propagate InMemory.service GetPolicy Topic
                "proj-1" "no-such-topic"
                (mkNamespace "proj-1" (Some "set-subscription-policy") None
                             (Some "no-such-subscription"))
                InMemory.st0 NotFoundError) as [Hfacade Hmain].
  split.
  - apply Hfacade. vm_compute. left. reflexivity.
  - apply Hmain. vm_compute. left. reflexivity.
Defined.

(** C10, as stated, fails for a subcommand that is not one of the six: the
    parser rejects the word, so the dispatcher is not reached and the
    process ends with the usage error's status 2, not 0. *)
Lemma C10_counterexample :
  ~ In "delete-topic-policy" recognized_commands
  /\ program InMemory.service ["proj-1"; "delete-topic-policy"; "topic-a"]
             InMemory.st0 = Some (mkProcess 2 [])
  /\ ~ (exists p,
          program InMemory.service
                  ["proj-1"; "delete-topic-policy"; "topic-a"]
                  InMemory.st0 = Some p
          /\ status p = 0%Z).
Proof.
  split; [|split].
  - cbn. intros [H|[H|[H|[H|[H|[H|[]]]]]]]; discriminate H.
  - reflexivity.
  - intros (p & Hp & Hs). vm_compute in Hp. injection Hp as <-.
    discriminate Hs.
Qed.

Lemma C10_witness :
  exists args,
    parse_args ["proj-1"] = Some (ParsedArgs args)
    /\ command args = None
    /\ (forall c, In c recognized_commands -> command_is args c = false)
    /\ events (main InMemory.service args InMemory.st0) = []
    /\ outcome (main InMemory.service args InMemory.st0) = Returned tt
    /\ final (main InMemory.service args InMemory.st0) = InMemory.st0
    /\ program InMemory.service ["proj-1"] InMemory.st0 =
       Some (mkProcess 0 []).
Proof.
  apply (C10_no_subcommand_exits_zero InMemory.service "proj-1"
           InMemory.st0).
  reflexivity.
Defined.

(** ** Client sessions *)

Example get_topic_policy_leaves_client_open :
  events (get_topic_policy InMemory.service "proj-1" "topic-a" InMemory.st0) =
  [NewClient PublisherClient 0;
   Rpc 0 (GetIamPolicyRequest "projects/proj-1/topics/topic-a")
       (inr (PolicyReply (mkPolicy 0 [] "")));
   Print "Policy for topic {}:" [VStr "projects/proj-1/topics/topic-a"]].
Proof. reflexivity. Qed.

(** C7, as stated, fails.  A successful [get_topic_policy] ends with its
    client constructed and never closed, and so does a
    [get_subscription_policy] that the service answers with an error. *)
Lemma C7_counterexample :
  (let r := get_topic_policy InMemory.service "proj-1" "topic-a"
                             InMemory.st0 in
   outcome r = Returned tt /\ unreleased (events r) = [0])
  /\ (let r := get_subscription_policy InMemory.service "proj-1"
                                       "no-such-subscription" InMemory.st0 in
      outcome r = Raised (ApiError NotFoundError)
      /\ unreleased (events r) = [0]).
Proof. repeat split. Qed.

Section Sessions.

Context {S : Type} (pubsub_v1 : PubSub S).

Lemma unreleased_closed_last (k : ClientKind) (c : nat) (inner : list Event) :
  acquired inner = [] ->
  unreleased (NewClient k c :: inner ++ [Close c]) = [].
Proof.
  intro Ha. unfold unreleased. cbn [acquired closed].
  rewrite acquired_app, closed_app, Ha. cbn [acquired closed app filter].
  rewrite existsb_app. cbn [existsb]. rewrite Nat.eqb_refl.
  rewrite orb_true_l, orb_true_r. reflexivity.
Qed.

(** C7, amended.  Every call of every facade operation constructs one
    client, before anything else.  A call of a subscription operation that
    completes without an error closes that client as its last action, and
    leaves no client unreleased. *)
Theorem C7_client_constructed_first_closed_after_subscription_success
  (op : Operation) (k : ResourceKind) (project name : string) (st : St S) :
  let r := facade pubsub_v1 op k project name st in
  (exists body,
     events r = NewClient (client_of k) (next_client st) :: body
     /\ acquired (events r) = [next_client st])
  /\ (k = Subscription ->
      outcome r = Returned tt ->
      (exists before,
         events r = before ++ [Close (next_client st)]
         /\ closed before = [])
      /\ unreleased (events r) = []).
Proof.
  intro r.
  destruct (facade_run_shape pubsub_v1 op k project name st)
    as (body & He & Ha & Hshape).
  fold r in He, Hshape. split.
  - exists body. split; [exact He|]. rewrite He. cbn. rewrite Ha. reflexivity.
  - intros -> Hret.
    destruct Hshape as [(_ & _ & inner & Hc & Hb)
                       | (e & rq & inner & Ho & _)].
    + split.
      * exists (NewClient (client_of Subscription) (next_client st) :: inner).
        split; [rewrite He, Hb; reflexivity | exact Hc].
      * rewrite He, Hb. apply unreleased_closed_last.
        rewrite Hb, acquired_app in Ha. apply app_eq_nil in Ha. apply Ha.
    + rewrite Ho in Hret. discriminate Hret.
Qed.

(** What the amended statement leaves out: the topic functions do not close
    their client, and no function closes it after a failed call. *)
Lemma topic_operations_never_close (op : Operation) (project name : string)
  (st : St S) :
  closed (events (facade pubsub_v1 op Topic project name st)) = [].
Proof.
  destruct (facade_run_shape pubsub_v1 op Topic project name st)
    as (body & He & _ & [(_ & _ & inner & Hc & Hb)
                        | (e & rq & inner & _ & _ & _ & _ & Hc)]);
    rewrite He; cbn [closed].
  - rewrite Hb, app_nil_r. exact Hc.
  - exact Hc.
Qed.

Lemma no_close_after_failed_call (op : Operation) (k : ResourceKind)
  (project name : string) (st : St S) (e : Exn) :
  outcome (facade pubsub_v1 op k project name st) = Raised e ->
  unreleased (events (facade pubsub_v1 op k project name st)) =
  [next_client st].
Proof.
  intro Hraised.
  destruct (facade_run_shape pubsub_v1 op k project name st)
    as (body & He & Ha & [(Ho & _) | (e' & rq & inner & _ & _ & _ & _ & Hc)]).
  - rewrite Ho in Hraised. discriminate Hraised.
  - rewrite He. unfold unreleased. cbn [acquired closed].
    rewrite Ha, Hc. reflexivity.
Qed.

End Sessions.

Lemma C7_witness :
  let r := facade InMemory.service SetPolicy Subscription "proj-1" "sub-a"
                  InMemory.st0 in
  (exists body,
     events r = NewClient SubscriberClient 0 :: body
     /\ acquired (events r) = [0])
  /\ (exists before, events r = before ++ [Close 0] /\ closed before = [])
  /\ unreleased (events r) = [].
Proof.
  destruct (C7_client_constructed_first_closed_after_subscription_success
              InMemory.service SetPolicy Subscription "proj-1" "sub-a"
              InMemory.st0) as [Hfirst Hlast].
  split; [exact Hfirst|].
  apply Hlast; reflexivity.
Defined.

(** ** Further properties of the sample functions *)

Lemma run_eta {S A} (r : Run S A) :
  mkRun (outcome r) (final r) (events r) = r.
Proof. destruct r. reflexivity. Qed.

Section WholeRuns.

Context {S : Type} (pubsub_v1 : PubSub S).

(** The whole run of every operation of either kind, final state included,
    by cases on what the service answers. *)
Lemma facade_run (op : Operation) (k : ResourceKind) (project name : string)
  (st : St S) :
  let path := resource_path pubsub_v1 k project name in
  let c := next_client st in
  let r := facade pubsub_v1 op k project name st in
  match op with
  | GetPolicy =>
      match get_iam_policy pubsub_v1 path (service_state st) with
      | (inl e, s1) =>
          r = mkRun (Raised (ApiError e)) (mkSt s1 (Datatypes.S c))
                    [NewClient (client_of k) c;
                     Rpc c (GetIamPolicyRequest path) (inl e)]
      | (inr p, s1) =>
          r = mkRun (Returned tt) (mkSt s1 (Datatypes.S c))
                    (NewClient (client_of k) c
                     :: Rpc c (GetIamPolicyRequest path) (inr (PolicyReply p))
                     :: Print (get_header k) [VStr path]
                     :: map print_binding (bindings p) ++ close_tail k c)
      end
  | SetPolicy =>
      match get_iam_policy pubsub_v1 path (service_state st) with
      | (inl e, s1) =>
          r = mkRun (Raised (ApiError e)) (mkSt s1 (Datatypes.S c))
                    [NewClient (client_of k) c;
                     Rpc c (GetIamPolicyRequest path) (inl e)]
      | (inr p, s1) =>
          match set_iam_policy pubsub_v1 path (with_added k p) s1 with
          | (inl e, s2) =>
              r = mkRun (Raised (ApiError e)) (mkSt s2 (Datatypes.S c))
                        [NewClient (client_of k) c;
                         Rpc c (GetIamPolicyRequest path)
                             (inr (PolicyReply p));
                         Rpc c (SetIamPolicyRequest path (with_added k p))
                             (inl e)]
          | (inr q, s2) =>
              r = mkRun (Returned tt) (mkSt s2 (Datatypes.S c))
                        (NewClient (client_of k) c
                         :: Rpc c (GetIamPolicyRequest path)
                                (inr (PolicyReply p))
                         :: Rpc c (SetIamPolicyRequest path (with_added k p))
                                (inr (PolicyReply q))
                         :: Print (set_line k) [VStr name; VPolicy q]
                         :: close_tail k c)
          end
      end
  | CheckPermissions =>
      match test_iam_permissions pubsub_v1 path (permissions_to_check k)
                                 (service_state st) with
      | (inl e, s1) =>
          r = mkRun (Raised (ApiError e)) (mkSt s1 (Datatypes.S c))
                    [NewClient (client_of k) c;
                     Rpc c (TestIamPermissionsRequest
                              path (permissions_to_check k)) (inl e)]
      | (inr ps, s1) =>
          r = mkRun (Returned tt) (mkSt s1 (Datatypes.S c))
                    (NewClient (client_of k) c
                     :: Rpc c (TestIamPermissionsRequest
                                 path (permissions_to_check k))
                            (inr (PermissionsReply ps))
                     :: Print (check_line k) [VStr path; VPermissions ps]
                     :: close_tail k c)
      end
  end.
Proof.
  destruct op, k;
    cbn [facade get_policy set_policy check_permissions resource_path
         client_of get_header set_line check_line close_tail].
  - rewrite get_topic_policy_run. cbv zeta.
    destruct (get_iam_policy pubsub_v1 _ _) as [[e|p] s1];
      rewrite ?app_nil_r; reflexivity.
  - rewrite get_subscription_policy_run. cbv zeta.
    destruct (get_iam_policy pubsub_v1 _ _) as [[e|p] s1]; reflexivity.
  - rewrite set_topic_policy_run. cbv zeta.
    destruct (get_iam_policy pubsub_v1 _ _) as [[e|p] s1]; [reflexivity|].
    destruct (set_iam_policy pubsub_v1 _ _ _) as [[e|q] s2]; reflexivity.
  - rewrite set_subscription_policy_run. cbv zeta.
    destruct (get_iam_policy pubsub_v1 _ _) as [[e|p] s1]; [reflexivity|].
    destruct (set_iam_policy pubsub_v1 _ _ _) as [[e|q] s2]; reflexivity.
  - rewrite check_topic_permissions_run. cbv zeta.
    destruct (test_iam_permissions pubsub_v1 _ _ _) as [[e|ps] s1];
      reflexivity.
  - rewrite check_subscription_permissions_run. cbv zeta.
    destruct (test_iam_permissions pubsub_v1 _ _ _) as [[e|ps] s1];
      reflexivity.
Qed.

End WholeRuns.

Lemma rpc_requests_app (xs ys : list Event) :
  rpc_requests (xs ++ ys) = rpc_requests xs ++ rpc_requests ys.
Proof. revert ys. log_app xs. Qed.

Lemma rpc_clients_app (xs ys : list Event) :
  rpc_clients (xs ++ ys) = rpc_clients xs ++ rpc_clients ys.
Proof. revert ys. log_app xs. Qed.

Lemma print_binding_calls (bs : list Binding) :
  rpc_clients (map print_binding bs) = [].
Proof. induction bs as [|b bs IH]; [reflexivity | exact IH]. Qed.

Lemma print_binding_printed (bs : list Binding) :
  printed (map print_binding bs) =
  map (fun b => ("Role: {}, Members: {}",
                 [VStr (role b); VMembers (members b)])) bs.
Proof.
  induction bs as [|b bs IH]; [reflexivity|]. cbn. rewrite IH. reflexivity.
Qed.

Section Discipline.

Context {S : Type} (pubsub_v1 : PubSub S).

Lemma facade_next_client (op : Operation) (k : ResourceKind)
  (project name : string) (st : St S) :
  next_client (final (facade pubsub_v1 op k project name st)) =
  Datatypes.S (next_client st).
Proof.
  pose proof (facade_run pubsub_v1 op k project name st) as H.
  destruct op; by_answers H; reflexivity.
Qed.

Lemma facade_acquired (op : Operation) (k : ResourceKind)
  (project name : string) (st : St S) :
  acquired (events (facade pubsub_v1 op k project name st)) =
  [next_client st].
Proof.
  destruct (facade_run_shape pubsub_v1 op k project name st)
    as (body & -> & Ha & _).
  cbn. rewrite Ha. reflexivity.
Qed.

Lemma facade_rpc_requests (op : Operation) (k : ResourceKind)
  (project name : string) (st : St S) :
  let path := resource_path pubsub_v1 k project name in
  let evs := events (facade pubsub_v1 op k project name st) in
  match op with
  | GetPolicy => rpc_requests evs = [GetIamPolicyRequest path]
  | SetPolicy =>
      rpc_requests evs = [GetIamPolicyRequest path]
      \/ exists p,
           rpc_requests evs =
           [GetIamPolicyRequest path;
            SetIamPolicyRequest path (with_added k p)]
  | CheckPermissions =>
      rpc_requests evs =
      [TestIamPermissionsRequest path (permissions_to_check k)]
  end.
Proof.
  pose proof (facade_run pubsub_v1 op k project name st) as H.
  destruct op; by_answers H; cbn [events rpc_requests].
  - reflexivity.
  - rewrite rpc_requests_app.
    destruct (print_binding_lines (bindings p)) as (_ & _ & _ & _ & _ & _ & ->).
    destruct k; reflexivity.
  - left. reflexivity.
  - right. exists p. reflexivity.
  - right. exists p. destruct k; reflexivity.
  - reflexivity.
  - destruct k; reflexivity.
Qed.

Lemma facade_rpc_clients (op : Operation) (k : ResourceKind)
  (project name : string) (st : St S) :
  let evs := events (facade pubsub_v1 op k project name st) in
  Forall (fun id => id = next_client st) (rpc_clients evs)
  /\ rpc_clients evs <> [].
Proof.
  pose proof (facade_run pubsub_v1 op k project name st) as H.
  destruct op; by_answers H; cbn [events rpc_clients];
    rewrite ?rpc_clients_app, ?print_binding_calls;
    destruct k; cbn; (split; [repeat constructor | discriminate]).
Qed.

Lemma facade_closed (op : Operation) (k : ResourceKind)
  (project name : string) (st : St S) :
  let r := facade pubsub_v1 op k project name st in
  closed (events r) =
  match k, outcome r with
  | Subscription, Returned _ => [next_client st]
  | _, _ => []
  end.
Proof.
  pose proof (facade_run pubsub_v1 op k project name st) as H.
  destruct op; by_answers H; cbn [events outcome closed];
    rewrite ?closed_app;
    try (destruct (print_binding_lines (bindings p))
           as (_ & _ & _ & _ & -> & _));
    destruct k; reflexivity.
Qed.

Lemma facade_printed (op : Operation) (k : ResourceKind)
  (project name : string) (st : St S) :
  let r := facade pubsub_v1 op k project name st in
  match outcome r with
  | Returned _ => printed (events r) <> []
  | Raised _ => printed (events r) = []
  end.
Proof.
  pose proof (facade_run pubsub_v1 op k project name st) as H.
  destruct op; by_answers H; cbn [events outcome printed];
    try reflexivity; discriminate.
Qed.

End Discipline.

Section ReadingOperations.

Context {S : Type} (pubsub_v1 : PubSub S).

(** X1.  Reading never writes: whatever the service answers, a get
    function and a check function of either kind make exactly one call, on
    the resource built from their arguments, and submit no policy. *)
Theorem X1_get_and_check_never_write
  (k : ResourceKind) (project name : string) (st : St S) :
  let path := resource_path pubsub_v1 k project name in
  let get := events (get_policy pubsub_v1 k project name st) in
  let check := events (check_permissions pubsub_v1 k project name st) in
  rpc_requests get = [GetIamPolicyRequest path]
  /\ submitted_policies get = []
  /\ rpc_requests check =
     [TestIamPermissionsRequest path (permissions_to_check k)]
  /\ submitted_policies check = [].
Proof.
  intros path get check. subst get check.
  pose proof (facade_run pubsub_v1 GetPolicy k project name st) as Hg.
  pose proof (facade_run pubsub_v1 CheckPermissions k project name st) as Hc.
  cbn [facade] in Hg, Hc. by_answers Hg; by_answers Hc;
    cbn [events rpc_requests submitted_policies];
    rewrite ?rpc_requests_app, ?submitted_policies_app;
    try (destruct (print_binding_lines (bindings p))
           as (_ & _ & -> & _ & _ & _ & ->));
    destruct k; repeat split.
Qed.

(** X2.  A get function that is answered with a policy prints the header
    naming the resource path and then one line per binding of the policy,
    in the policy's order, each with the role and the members of that
    binding: as many lines as bindings plus one, and the header alone for a
    policy without bindings. *)
Theorem X2_get_policy_prints_every_binding
  (k : ResourceKind) (project name : string) (st : St S)
  (p : Policy) (s1 : S) :
  let path := resource_path pubsub_v1 k project name in
  get_iam_policy pubsub_v1 path (service_state st) = (inr p, s1) ->
  let r := get_policy pubsub_v1 k project name st in
  outcome r = Returned tt
  /\ printed (events r) =
     (get_header k, [VStr path])
     :: map (fun b => ("Role: {}, Members: {}",
                       [VStr (role b); VMembers (members b)])) (bindings p)
  /\ length (printed (events r)) = Datatypes.S (length (bindings p))
  /\ service_state (final r) = s1.
Proof.
  intros path Hget r. subst r.
  pose proof (facade_run pubsub_v1 GetPolicy k project name st) as H.
  cbn [facade] in H. cbv zeta in H. fold path in H. rewrite Hget in H.
  rewrite H. cbn [outcome events final service_state printed].
  rewrite printed_app, print_binding_printed.
  assert (Ht : printed (close_tail k (next_client st)) = [])
    by (destruct k; reflexivity).
  rewrite Ht, app_nil_r. repeat split.
  cbn [length]. rewrite length_map. reflexivity.
Qed.

End ReadingOperations.

Section WritingOperations.

Context {S : Type} (pubsub_v1 : PubSub S).

(** X3.  A set function whose two calls succeed executes one print
    statement and no other; its arguments are the resource id the function
    was given (not the resource path) and the policy the service answered
    the write with, whether or not that is the policy that was submitted.
    The service is left in the state the write left it in.  (How the policy
    is rendered, and on how many lines, is not part of the statement.) *)
Theorem X3_set_policy_prints_service_answer
  (k : ResourceKind) (project name : string) (st : St S)
  (p q : Policy) (s1 s2 : S) :
  let path := resource_path pubsub_v1 k project name in
  get_iam_policy pubsub_v1 path (service_state st) = (inr p, s1) ->
  set_iam_policy pubsub_v1 path (with_added k p) s1 = (inr q, s2) ->
  let r := set_policy pubsub_v1 k project name st in
  outcome r = Returned tt
  /\ printed (events r) = [(set_line k, [VStr name; VPolicy q])]
  /\ service_state (final r) = s2.
Proof.
  intros path Hget Hset r. subst r.
  pose proof (facade_run pubsub_v1 SetPolicy k project name st) as H.
  cbn [facade] in H. cbv zeta in H. fold path in H.
  rewrite Hget, Hset in H. rewrite H. destruct k; repeat split.
Qed.

(** X4.  Setting twice adds twice: when the service stores what the first
    set function submitted, a second call on the same resource submits the
    original bindings followed by the added bindings two times over, so
    every added binding occurs two more times than in the original. *)
Theorem X4_set_policy_twice_adds_twice
  (k : ResourceKind) (project name : string) (st : St S)
  (p q : Policy) (s1 s2 s3 : S) :
  let path := resource_path pubsub_v1 k project name in
  get_iam_policy pubsub_v1 path (service_state st) = (inr p, s1) ->
  set_iam_policy pubsub_v1 path (with_added k p) s1 = (inr q, s2) ->
  get_iam_policy pubsub_v1 path s2 = (inr (with_added k p), s3) ->
  let r := (set_policy pubsub_v1 k project name ;;
            set_policy pubsub_v1 k project name) st in
  exists second,
    submitted_policies (events r) = [with_added k p; second]
    /\ bindings second =
       bindings p ++ bindings_to_add k ++ bindings_to_add k
    /\ forall b,
         count_occ Binding_eq_dec (bindings second) b =
         count_occ Binding_eq_dec (bindings p) b
         + 2 * count_occ Binding_eq_dec (bindings_to_add k) b.
Proof.
  intros path Hget Hset Hget2 r.
  exists (with_added k (with_added k p)). split; [|split].
  - subst r. unfold bind.
    pose proof (facade_run pubsub_v1 SetPolicy k project name st) as H.
    cbn [facade] in H. cbv zeta in H. fold path in H.
    rewrite Hget, Hset in H. rewrite H. cbn [outcome final events].
    pose proof (facade_run pubsub_v1 SetPolicy k project name
                  (mkSt s2 (Datatypes.S (next_client st)))) as H2.
    cbn [facade service_state] in H2. cbv zeta in H2. fold path in H2.
    rewrite Hget2 in H2.
    destruct (set_iam_policy pubsub_v1 path (with_added k (with_added k p)) s3)
      as [[e|q'] s4]; rewrite H2; destruct k; reflexivity.
  - cbn [with_added bindings]. rewrite <- app_assoc. reflexivity.
  - intro b. cbn [with_added bindings]. rewrite !count_occ_app.
    rewrite <- Nat.add_assoc. f_equal. cbn [Nat.mul]. rewrite Nat.add_0_r.
    reflexivity.
Qed.

End WritingOperations.

Lemma X2_witness :
  let r := get_policy InMemory.service Topic "proj-1" "topic-a"
                      (mkSt InMemory.store1 0) in
  outcome r = Returned tt
  /\ printed (events r) =
     [("Policy for topic {}:", [VStr "projects/proj-1/topics/topic-a"]);
      ("Role: {}, Members: {}",
       [VStr "roles/pubsub.viewer"; VMembers ["domain:google.com"]])]
  /\ length (printed (events r)) = 2
  /\ service_state (final r) = InMemory.store1.
Proof.
  apply (X2_get_policy_prints_every_binding InMemory.service Topic "proj-1"
           "topic-a" (mkSt InMemory.store1 0)
           (mkPolicy 1 [viewer_binding] "BwXhqDVSbGk=") InMemory.store1).
  reflexivity.
Defined.

Lemma X3_witness :
  let r := set_policy Stamping.service Subscription "proj-1" "sub-a"
                      InMemory.st0 in
  outcome r = Returned tt
  /\ printed (events r) =
     [("IAM policy for subscription {} set: {}",
       [VStr "sub-a";
        VPolicy (mkPolicy 1 [viewer_binding; editor_binding] "stamped")])]
  /\ service_state (final r) =
     InMemory.mkStore
       [("projects/proj-1/topics/topic-a", InMemory.empty_policy);
        ("projects/proj-1/subscriptions/sub-a",
         mkPolicy 0 [viewer_binding; editor_binding] "")]
       ["pubsub.topics.publish"; "pubsub.subscriptions.consume"].
Proof.
  apply (X3_set_policy_prints_service_answer Stamping.service Subscription
           "proj-1" "sub-a" InMemory.st0 InMemory.empty_policy
           (mkPolicy 1 [viewer_binding; editor_binding] "stamped")
           InMemory.store0); reflexivity.
Defined.

Lemma X4_witness :
  let r := (set_policy InMemory.service Topic "proj-1" "topic-a" ;;
            set_policy InMemory.service Topic "proj-1" "topic-a")
             InMemory.st0 in
  exists second,
    submitted_policies (events r) =
    [with_added Topic InMemory.empty_policy; second]
    /\ bindings second =
       bindings InMemory.empty_policy
       ++ bindings_to_add Topic ++ bindings_to_add Topic
    /\ forall b,
         count_occ Binding_eq_dec (bindings second) b =
         count_occ Binding_eq_dec (bindings InMemory.empty_policy) b
         + 2 * count_occ Binding_eq_dec (bindings_to_add Topic) b.
Proof.
  apply (X4_set_policy_twice_adds_twice InMemory.service Topic "proj-1"
           "topic-a" InMemory.st0 InMemory.empty_policy
           (with_added Topic InMemory.empty_policy) InMemory.store0
           (InMemory.mkStore
              [("projects/proj-1/topics/topic-a",
                with_added Topic InMemory.empty_policy);
               ("projects/proj-1/subscriptions/sub-a", InMemory.empty_policy)]
              ["pubsub.topics.publish"; "pubsub.subscriptions.consume"])
           (InMemory.mkStore
              [("projects/proj-1/topics/topic-a",
                with_added Topic InMemory.empty_policy);
               ("projects/proj-1/subscriptions/sub-a", InMemory.empty_policy)]
              ["pubsub.topics.publish"; "pubsub.subscriptions.consume"]));
    reflexivity.
Defined.

Section Routing.

Context {S : Type} (pubsub_v1 : PubSub S).

(** X5.  The dispatcher routes each of the six commands to the function of
    that name, handing it the project id and the topic id (for the topic
    commands) or the subscription id (for the subscription commands): the
    run of the program is the run of that function, and of no other. *)
Theorem X5_dispatcher_routes_commands
  (args : Namespace) (st : St S) (x : string) :
  (command args = Some "get-topic-policy" -> topic_id args = Some x ->
   main pubsub_v1 args st =
   get_topic_policy pubsub_v1 (project_id args) x st)
  /\ (command args = Some "get-subscription-policy" ->
      subscription_id args = Some x ->
      main pubsub_v1 args st =
      get_subscription_policy pubsub_v1 (project_id args) x st)
  /\ (command args = Some "set-topic-policy" -> topic_id args = Some x ->
      main pubsub_v1 args st =
      set_topic_policy pubsub_v1 (project_id args) x st)
  /\ (command args = Some "set-subscription-policy" ->
      subscription_id args = Some x ->
      main pubsub_v1 args st =
      set_subscription_policy pubsub_v1 (project_id args) x st)
  /\ (command args = Some "check-topic-permissions" ->
      topic_id args = Some x ->
      main pubsub_v1 args st =
      check_topic_permissions pubsub_v1 (project_id args) x st)
  /\ (command args = Some "check-subscription-permissions" ->
      subscription_id args = Some x ->
      main pubsub_v1 args st =
      check_subscription_permissions pubsub_v1 (project_id args) x st).
Proof.
  repeat split; intros Hcmd Hid; unfold main, command_is;
    rewrite Hcmd, Hid; cbn [String.eqb Ascii.eqb Bool.eqb];
    unfold bind, getattr, ret; cbn [outcome final events app];
    apply run_eta.
Qed.

Lemma facade_bounds (op : Operation) (k : ResourceKind)
  (project name : string) (st : St S) :
  let evs := events (facade pubsub_v1 op k project name st) in
  length (rpc_requests evs) <= 2
  /\ length (submitted_policies evs) <= 1
  /\ length (closed evs) <= 1.
Proof.
  pose proof (facade_run pubsub_v1 op k project name st) as H.
  destruct op; by_answers H;
    cbn [events rpc_requests submitted_policies closed];
    rewrite ?rpc_requests_app, ?submitted_policies_app, ?closed_app;
    try (destruct (print_binding_lines (bindings p))
           as (_ & _ & -> & _ & -> & _ & ->));
    destruct k; cbn; repeat split; repeat constructor.
Qed.

(** X6.  One invocation of the program, whatever its arguments and
    whatever the service answers, constructs at most one client, makes at
    most two calls, submits at most one policy and closes at most one
    client. *)
Theorem X6_dispatcher_runs_one_operation (args : Namespace) (st : St S) :
  let evs := events (main pubsub_v1 args st) in
  length (acquired evs) <= 1
  /\ length (rpc_requests evs) <= 2
  /\ length (submitted_policies evs) <= 1
  /\ length (closed evs) <= 1.
Proof.
  cbv zeta.
  destruct (main_run pubsub_v1 args st)
    as [(op & k & name & _ & He) | (He & _)]; cbv zeta in He; rewrite He.
  - rewrite facade_acquired. split; [constructor|].
    apply facade_bounds.
  - cbn. repeat split; repeat constructor.
Qed.

(** X7.  The exit status tells what happened: a run of the program that
    ends with status 0 had no call answered with an error, and a run that
    ends with a nonzero status printed nothing, so there is no partial
    output. *)
Theorem X7_exit_status_and_output (args : Namespace) (st : St S) :
  let r := main pubsub_v1 args st in
  (exit_code (outcome r) = 0%Z -> failed_calls (events r) = [])
  /\ (exit_code (outcome r) <> 0%Z -> printed (events r) = []).
Proof.
  cbv zeta.
  destruct (main_run pubsub_v1 args st)
    as [(op & k & name & Ho & He) | (He & _)]; cbv zeta in *.
  - rewrite Ho, He.
    destruct (facade_run_shape pubsub_v1 op k (project_id args) name st)
      as (body & Hev & _ & [(Hret & Hf & _)
                           | (e & rq & inner & Hr & _ & _ & Hp & _)]);
      rewrite Hev; cbn [failed_calls printed].
    + rewrite Hret. split; [intros _; exact Hf|].
      intro Hne. exfalso. apply Hne. reflexivity.
    + rewrite Hr. split; [intro Hz; discriminate Hz|]. intros _. exact Hp.
  - rewrite He. split; reflexivity.
Qed.

End Routing.

Lemma X5_witness :
  main InMemory.service
       (mkNamespace "proj-1" (Some "get-topic-policy") (Some "topic-a") None)
       InMemory.st0 =
  get_topic_policy InMemory.service "proj-1" "topic-a" InMemory.st0
  /\ main InMemory.service
          (mkNamespace "proj-1" (Some "get-subscription-policy") None
                       (Some "sub-a")) InMemory.st0 =
     get_subscription_policy InMemory.service "proj-1" "sub-a" InMemory.st0
  /\ main InMemory.service
          (mkNamespace "proj-1" (Some "set-topic-policy") (Some "topic-a")
                       None) InMemory.st0 =
     set_topic_policy InMemory.service "proj-1" "topic-a" InMemory.st0
  /\ main InMemory.service
          (mkNamespace "proj-1" (Some "set-subscription-policy") None
                       (Some "sub-a")) InMemory.st0 =
     set_subscription_policy InMemory.service "proj-1" "sub-a" InMemory.st0
  /\ main InMemory.service
          (mkNamespace "proj-1" (Some "check-topic-permissions")
                       (Some "topic-a") None) InMemory.st0 =
     check_topic_permissions InMemory.service "proj-1" "topic-a" InMemory.st0
  /\ main InMemory.service
          (mkNamespace "proj-1" (Some "check-subscription-permissions") None
                       (Some "sub-a")) InMemory.st0 =
     check_subscription_permissions InMemory.service "proj-1" "sub-a"
                                    InMemory.st0.
Proof.
  refine (conj _ (conj _ (conj _ (conj _ (conj _ _))))).
  - apply (X5_dispatcher_routes_commands InMemory.service
             (mkNamespace "proj-1" (Some "get-topic-policy")
                          (Some "topic-a") None)
             InMemory.st0 "topic-a"); reflexivity.
  - apply (X5_dispatcher_routes_commands InMemory.service
             (mkNamespace "proj-1" (Some "get-subscription-policy") None
                          (Some "sub-a"))
             InMemory.st0 "sub-a"); reflexivity.
  - apply (X5_dispatcher_routes_commands InMemory.service
             (mkNamespace "proj-1" (Some "set-topic-policy")
                          (Some "topic-a") None)
             InMemory.st0 "topic-a"); reflexivity.
  - apply (X5_dispatcher_routes_commands InMemory.service
             (mkNamespace "proj-1" (Some "set-subscription-policy") None
                          (Some "sub-a"))
             InMemory.st0 "sub-a"); reflexivity.
  - apply (X5_dispatcher_routes_commands InMemory.service
             (mkNamespace "proj-1" (Some "check-topic-permissions")
                          (Some "topic-a") None)
             InMemory.st0 "topic-a"); reflexivity.
  - apply (X5_dispatcher_routes_commands InMemory.service
             (mkNamespace "proj-1" (Some "check-subscription-permissions")
                          None (Some "sub-a"))
             InMemory.st0 "sub-a"); reflexivity.
Defined.

Lemma X7_witness :
  failed_calls
    (events (main InMemory.service
               (mkNamespace "proj-1" (Some "check-topic-permissions")
                            (Some "topic-a") None) InMemory.st0)) = []
  /\ printed
       (events (main InMemory.service
                  (mkNamespace "proj-1" (Some "get-topic-policy")
                               (Some "no-such-topic") None) InMemory.st0))
     = [].
Proof.
  split.
  - apply (X7_exit_status_and_output InMemory.service
             (mkNamespace "proj-1" (Some "check-topic-permissions")
                          (Some "topic-a") None) InMemory.st0).
    reflexivity.
  - apply (X7_exit_status_and_output InMemory.service
             (mkNamespace "proj-1" (Some "get-topic-policy")
                          (Some "no-such-topic") None) InMemory.st0).
    vm_compute. discriminate.
Defined.

Section Clients.

Context {S : Type} (pubsub_v1 : PubSub S).

(** X8.  Every operation of either kind talks about one resource through
    one client: it constructs exactly one client, makes at least one call,
    every call goes through that client, and every call names the resource
    path built from the operation's own arguments by the template of its
    kind. *)
Theorem X8_one_client_one_resource
  (op : Operation) (k : ResourceKind) (project name : string) (st : St S) :
  let path := resource_path pubsub_v1 k project name in
  let evs := events (facade pubsub_v1 op k project name st) in
  acquired evs = [next_client st]
  /\ rpc_requests evs <> []
  /\ Forall (fun rq => request_resource rq = path) (rpc_requests evs)
  /\ Forall (fun id => id = next_client st) (rpc_clients evs).
Proof.
  intros path evs. subst evs.
  split; [apply facade_acquired|].
  pose proof (facade_rpc_requests pubsub_v1 op k project name st) as Hrq.
  cbv zeta in Hrq. fold path in Hrq.
  assert (Hres : rpc_requests
                   (events (facade pubsub_v1 op k project name st)) <> []
                 /\ Forall (fun rq => request_resource rq = path)
                      (rpc_requests
                         (events (facade pubsub_v1 op k project name st)))).
  { destruct op.
    - rewrite Hrq. split; [discriminate | repeat constructor].
    - destruct Hrq as [Hrq | [p Hrq]]; rewrite Hrq;
        (split; [discriminate | repeat constructor]).
    - rewrite Hrq. split; [discriminate | repeat constructor]. }
  destruct Hres as [Hne Hall]. split; [exact Hne|]. split; [exact Hall|].
  apply facade_rpc_clients.
Qed.

(** X9.  A client is closed exactly by a subscription operation that ran
    to its end: such a run closes the client it constructed, once, and
    every other run (a topic operation, or any operation a call of which
    failed) closes nothing.  Nothing is ever closed that the run did not
    construct. *)
Theorem X9_close_only_after_subscription_success
  (op : Operation) (k : ResourceKind) (project name : string) (st : St S) :
  let r := facade pubsub_v1 op k project name st in
  closed (events r) =
  match k, outcome r with
  | Subscription, Returned _ => [next_client st]
  | _, _ => []
  end
  /\ incl (closed (events r)) (acquired (events r)).
Proof.
  intro r. subst r. rewrite facade_closed, facade_acquired.
  split; [reflexivity|].
  destruct k; [apply incl_nil_l|].
  destruct (outcome _); [apply incl_refl | apply incl_nil_l].
Qed.

(** X10.  Output tells success from failure: an operation prints at least
    one line exactly when it ran to its end without an error. *)
Theorem X10_prints_exactly_on_success
  (op : Operation) (k : ResourceKind) (project name : string) (st : St S) :
  let r := facade pubsub_v1 op k project name st in
  outcome r = Returned tt <-> printed (events r) <> [].
Proof.
  intro r. subst r.
  pose proof (facade_printed pubsub_v1 op k project name st) as H.
  cbv zeta in H.
  destruct (outcome (facade pubsub_v1 op k project name st)) as [[]|e].
  - split; [intros _; exact H | reflexivity].
  - split; [intro Hr; discriminate Hr | intro Hne; destruct (Hne H)].
Qed.

(** X11.  Clients are never shared between calls.  Of two operations run
    one after the other, the second runs only if the first raised nothing;
    it then constructs a client of its own, and its calls go through that
    client and none through the first one.  If the first raised, the run
    ends there with that exception and the second constructs nothing. *)
Theorem X11_consecutive_operations_use_fresh_clients
  (op1 op2 : Operation) (k1 k2 : ResourceKind)
  (project1 name1 project2 name2 : string) (st : St S) :
  let c := next_client st in
  let r1 := facade pubsub_v1 op1 k1 project1 name1 st in
  let r := (facade pubsub_v1 op1 k1 project1 name1 ;;
            facade pubsub_v1 op2 k2 project2 name2) st in
  match outcome r1 with
  | Returned _ =>
      acquired (events r) = [c; Datatypes.S c]
      /\ exists evs2,
           events r = events r1 ++ evs2
           /\ Forall (fun id => id = c) (rpc_clients (events r1))
           /\ Forall (fun id => id = Datatypes.S c) (rpc_clients evs2)
           /\ rpc_clients evs2 <> []
  | Raised e => outcome r = Raised e /\ events r = events r1
  end.
Proof.
  intros c r1 r. subst c r1 r. unfold bind.
  destruct (outcome (facade pubsub_v1 op1 k1 project1 name1 st))
    as [[]|e] eqn:Ho; cbn [outcome final events].
  - pose proof (facade_next_client pubsub_v1 op1 k1 project1 name1 st) as Hn.
    split.
    + rewrite acquired_app, !facade_acquired, Hn. reflexivity.
    + eexists. split; [reflexivity|].
      split; [apply facade_rpc_clients|].
      rewrite <- Hn. apply facade_rpc_clients.
  - split; reflexivity.
Qed.

End Clients.

Lemma X10_witness :
  outcome (facade InMemory.service CheckPermissions Subscription "proj-1"
             "sub-a" InMemory.st0) = Returned tt
  /\ printed (events (facade InMemory.service CheckPermissions Subscription
                        "proj-1" "sub-a" InMemory.st0)) <> [].
Proof.
  split.
  - apply (X10_prints_exactly_on_success InMemory.service CheckPermissions
             Subscription "proj-1" "sub-a" InMemory.st0).
    vm_compute. discriminate.
  - apply (X10_prints_exactly_on_success InMemory.service CheckPermissions
             Subscription "proj-1" "sub-a" InMemory.st0).
    reflexivity.
Defined.

Example get_then_check_uses_two_clients :
  let r := (get_subscription_policy InMemory.service "proj-1" "sub-a" ;;
            check_topic_permissions InMemory.service "proj-1" "topic-a")
             InMemory.st0 in
  acquired (events r) = [0; 1]
  /\ rpc_clients (events r) = [0; 1]
  /\ closed (events r) = [0].
Proof. repeat split. Qed.

Section BindingSets.

Context {S : Type} (pubsub_v1 : PubSub S).

(** X13.  Read as a set, the bindings of a policy change under a set
    function exactly when the fetched policy lacks one of the two bindings
    the function adds: the submitted policy holds the same bindings as the
    fetched one, duplicates aside, if and only if both added bindings were
    already there. *)
Theorem X13_set_policy_keeps_binding_set_iff
  (k : ResourceKind) (project name : string) (st : St S)
  (fetched : Policy) (s1 : S) :
  get_iam_policy pubsub_v1 (resource_path pubsub_v1 k project name)
                 (service_state st) = (inr fetched, s1) ->
  exists submitted,
    submitted_policies (events (set_policy pubsub_v1 k project name st)) =
    [submitted]
    /\ ((forall b, In b (bindings submitted) <-> In b (bindings fetched))
        <-> incl (bindings_to_add k) (bindings fetched)).
Proof.
  intro Hget.
  pose proof (set_policy_submitted pubsub_v1 k project name st) as H.
  cbv zeta in H. rewrite Hget in H.
  exists (with_added k fetched). split; [exact H|].
  cbn [with_added bindings]. split.
  - intros Hsame b Hb. apply Hsame. apply in_or_app. right. exact Hb.
  - intros Hincl b. split.
    + intro Hb. apply in_app_or in Hb. destruct Hb as [Hb|Hb];
        [exact Hb | apply Hincl; exact Hb].
    + intro Hb. apply in_or_app. left. exact Hb.
Qed.

End BindingSets.

Lemma X13_witness :
  exists submitted,
    submitted_policies
      (events (set_policy InMemory.service Topic "proj-1" "topic-a"
                 (mkSt InMemory.store1 0))) = [submitted]
    /\ ((forall b,
           In b (bindings submitted) <->
           In b (bindings (mkPolicy 1 [viewer_binding] "BwXhqDVSbGk=")))
        <-> incl (bindings_to_add Topic)
                 (bindings (mkPolicy 1 [viewer_binding] "BwXhqDVSbGk="))).
Proof.
  apply (X13_set_policy_keeps_binding_set_iff InMemory.service Topic "proj-1"
           "topic-a" (mkSt InMemory.store1 0)
           (mkPolicy 1 [viewer_binding] "BwXhqDVSbGk=") InMemory.store1).
  reflexivity.
Defined.

(** ** The command line *)


Section CommandLine.

Context {S : Type} (pubsub_v1 : PubSub S).


(** X15.  From the command line to the function: a project id, one of the
    six subcommands and one id make the process run the function of that
    name on the project id and the id, and end with status 0 if it returns
    and 1 if it raises. *)
Theorem X15_command_line_runs_named_function
  (project x : string) (st : St S) :
  option_like project = false ->
  option_like x = false ->
  let ends (r : Run S unit) :=
    Some (mkProcess (exit_code (outcome r)) (events r)) in
  program pubsub_v1 [project; "get-topic-policy"; x] st =
  ends (get_topic_policy pubsub_v1 project x st)
  /\ program pubsub_v1 [project; "get-subscription-policy"; x] st =
     ends (get_subscription_policy pubsub_v1 project x st)
  /\ program pubsub_v1 [project; "set-topic-policy"; x] st =
     ends (set_topic_policy pubsub_v1 project x st)
  /\ program pubsub_v1 [project; "set-subscription-policy"; x] st =
     ends (set_subscription_policy pubsub_v1 project x st)
  /\ program pubsub_v1 [project; "check-topic-permissions"; x] st =
     ends (check_topic_permissions pubsub_v1 project x st)
  /\ program pubsub_v1 [project; "check-subscription-permissions"; x] st =
     ends (check_subscription_permissions pubsub_v1 project x st).
Proof.
  intros Hp Hx ends. subst ends.
  repeat split; unfold program, parse_args; cbn [existsb option_like];
    rewrite Hp, Hx; reflexivity.
Qed.

End CommandLine.


Lemma X15_witness :
  program InMemory.service ["proj-1"; "set-topic-policy"; "topic-a"]
          InMemory.st0 =
  Some (mkProcess 0
          (events (set_topic_policy InMemory.service "proj-1" "topic-a"
                     InMemory.st0)))
  /\ program InMemory.service
             ["proj-1"; "check-subscription-permissions"; "no-such-sub"]
             InMemory.st0 =
     Some (mkProcess 1
             (events (check_subscription_permissions InMemory.service
                        "proj-1" "no-such-sub" InMemory.st0))).
Proof.
  split.
  - apply (X15_command_line_runs_named_function InMemory.service "proj-1"
             "topic-a" InMemory.st0); reflexivity.
  - apply (X15_command_line_runs_named_function InMemory.service "proj-1"
             "no-such-sub" InMemory.st0); reflexivity.
Defined.

Example subparsers_are_the_recognized_commands :
  map fst subparsers = recognized_commands.
Proof. reflexivity. Qed.
